(** * The ASCM denoising example of DIPY, [doc/examples/denoise_ascm.py]

    The script is a straight-line driver: it loads a 4D image, derives a
    mask and a working volume from two of its channels, calls three library
    routines ([estimate_sigma], [non_local_means] twice, [ascm]), draws two
    figures and saves the fused volume.

    The embedding follows the script statement by statement.  Arrays are
    numpy arrays in C order (a shape and a flat buffer), the library
    routines are the fields of an interface, and the script runs in a
    writer monad with exceptions that records every call the script makes.

    Samples are exact rationals: the rounding of floating point is not
    modelled, [astype('f8')] is the identity. *)

From Stdlib Require Import List Arith Lia Bool String QArith Qabs.
Import ListNotations.

Local Open Scope nat_scope.

(** ** Exceptions and results *)

(** The failure conditions of section 7 of the specification. *)
Inductive condition : Type :=
| ShapeMismatch
| InvalidParameter
| DegenerateInput.

(** What a statement of the script can raise: the two numpy errors of its
    own indexing and arithmetic, and a rejection by a library routine, which
    carries the conditions the routine reports. *)
Inductive exn : Type :=
| IndexError
| ValueError
| Rejected (why : list condition).

Inductive result (A : Type) : Type :=
| Ok (a : A)
| Raise (e : exn).

Arguments Ok {A} a.
Arguments Raise {A} e.

(** ** Arrays *)

(** Reads of a buffer are written with [nth] and a filler; the filler is
    only ever returned for a record whose buffer is shorter than its shape
    says, which numpy cannot build. *)
Class Filler (A : Type) := filler : A.
#[export] Instance filler_Q : Filler Q := 0%Q.
#[export] Instance filler_bool : Filler bool := false.

Record array2 (A : Type) : Type := Array2
  { rows2 : nat; cols2 : nat; cells2 : list A }.

Record array3 (A : Type) : Type := Array3
  { len_x : nat; len_y : nat; len_z : nat; cells3 : list A }.

Record array4 (A : Type) : Type := Array4
  { ext_x : nat; ext_y : nat; ext_z : nat; ext_c : nat; cells4 : list A }.

Arguments Array2 {A} _ _ _.
Arguments rows2 {A} _.
Arguments cols2 {A} _.
Arguments cells2 {A} _.
Arguments Array3 {A} _ _ _ _.
Arguments len_x {A} _.
Arguments len_y {A} _.
Arguments len_z {A} _.
Arguments cells3 {A} _.
Arguments Array4 {A} _ _ _ _ _.
Arguments ext_x {A} _.
Arguments ext_y {A} _.
Arguments ext_z {A} _.
Arguments ext_c {A} _.
Arguments cells4 {A} _.

Definition shape2 {A} (a : array2 A) : nat * nat := (rows2 a, cols2 a).
Definition shape3 {A} (a : array3 A) : nat * nat * nat :=
  (len_x a, len_y a, len_z a).

Definition tabulate {A} (n : nat) (f : nat -> A) : list A :=
  map f (seq 0 n).

Section Access.
Context {A : Type} `{Filler A}.

(** [a[i, j]], [a[x, y, z]] and [a[x, y, z, c]] in C order. *)
Definition get2 (a : array2 A) (i j : nat) : A :=
  nth (i * cols2 a + j) (cells2 a) filler.

Definition get3 (a : array3 A) (x y z : nat) : A :=
  nth ((x * len_y a + y) * len_z a + z) (cells3 a) filler.

Definition get4 (a : array4 A) (x y z c : nat) : A :=
  nth (((x * ext_y a + y) * ext_z a + z) * ext_c a + c) (cells4 a) filler.

(** [a[..., k]] on a 4D array: IndexError when [k] is not a channel. *)
Definition channel (k : nat) (a : array4 A) : result (array3 A) :=
  if k <? ext_c a then
    Ok (Array3 (ext_x a) (ext_y a) (ext_z a)
          (tabulate (ext_x a * ext_y a * ext_z a)
             (fun i => nth (i * ext_c a + k) (cells4 a) filler)))
  else Raise IndexError.

(** [a[:, :, m]] (and [a[..., m]]) on a 3D array. *)
Definition slice_z (m : nat) (a : array3 A) : result (array2 A) :=
  if m <? len_z a then
    Ok (Array2 (len_x a) (len_y a)
          (tabulate (len_x a * len_y a)
             (fun p => nth (p * len_z a + m) (cells3 a) filler)))
  else Raise IndexError.

(** [a.T] on a 2D array. *)
Definition transpose (a : array2 A) : array2 A :=
  Array2 (cols2 a) (rows2 a)
    (tabulate (cols2 a * rows2 a)
       (fun j => get2 a (j mod rows2 a) (j / rows2 a))).

(** [a[m] = v] with a boolean array [m]: numpy rejects a mask of another
    shape with an IndexError. *)
Definition set_where (m : array2 bool) (v : A) (a : array2 A)
  : result (array2 A) :=
  if (rows2 m =? rows2 a) && (cols2 m =? cols2 a) then
    Ok (Array2 (rows2 a) (cols2 a)
          (tabulate (rows2 a * cols2 a)
             (fun j => if nth j (cells2 m) filler then v
                       else nth j (cells2 a) filler)))
  else Raise IndexError.
End Access.

Definition map2d {A B} (f : A -> B) (a : array2 A) : array2 B :=
  Array2 (rows2 a) (cols2 a) (map f (cells2 a)).

Definition map3d {A B} (f : A -> B) (a : array3 A) : array3 B :=
  Array3 (len_x a) (len_y a) (len_z a) (map f (cells3 a)).

(** numpy broadcasting of one axis: equal lengths, or one of them is 1. *)
Definition bdim (d1 d2 : nat) : option nat :=
  if d1 =? d2 then Some d1
  else if d1 =? 1 then Some d2
  else if d2 =? 1 then Some d1
  else None.

(** A binary operator applied elementwise to two 2D arrays, with
    broadcasting; ValueError when the shapes cannot be broadcast. *)
Definition broadcast2 {A B C} `{Filler A} `{Filler B}
    (op : A -> B -> C) (a : array2 A) (b : array2 B) : result (array2 C) :=
  match bdim (rows2 a) (rows2 b), bdim (cols2 a) (cols2 b) with
  | Some r, Some c =>
      Ok (Array2 r c
            (tabulate (r * c) (fun j =>
               let i := j / c in
               let k := j mod c in
               op (get2 a (if rows2 a =? 1 then 0 else i)
                          (if cols2 a =? 1 then 0 else k))
                  (get2 b (if rows2 b =? 1 then 0 else i)
                          (if cols2 b =? 1 then 0 else k)))))
  | _, _ => Raise ValueError
  end.

(** [x > 80] on a sample. *)
Definition gt80 (x : Q) : bool := negb (Qle_bool x 80).

(** ** The objects of the script *)

(** The image read from the dataset: a 4D array and its affine (a 4x4
    matrix that the script only carries along). *)
Record image : Type := Image
  { img_data : array4 Q; img_affine : array2 Q }.

(** The three routines imported from [dipy.denoise].  [estimate_sigma]
    returns a 1-D array with one estimate per channel; each routine may
    raise.  A routine is a function of its arguments: the library keeps no
    state between calls. *)
Class DenoiseLib : Type :=
  { estimate_sigma : array3 Q -> nat -> result (list Q);
    non_local_means :
      array3 Q -> list Q -> array3 bool -> nat -> nat -> bool ->
      result (array3 Q);
    ascm : array3 Q -> array3 Q -> array3 Q -> Q -> result (array3 Q) }.

(** What [print] shows after its text. *)
Inductive shown : Type :=
| NoValue
| ShapeOf (s : nat * nat * nat)
| Elapsed.

(** One event per call the script makes, with the arguments of the call.
    [Local line var] marks a statement that binds [var] by array
    operations of the script itself.  The elapsed time that line 83 prints
    depends on the clock and is left abstract. *)
Inductive event : Type :=
| Fetch
| Read
| GetData
| GetAffine
| Local (line : nat) (var : string)
| Print (text : string) (v : shown)
| Clock
| EstimateSigma (arr : array3 Q) (N : nat)
| NonLocalMeans (arr : array3 Q) (sigma : list Q) (mask : array3 bool)
    (patch_radius block_radius : nat) (rician : bool)
| Ascm (ima fimau fimao : array3 Q) (h : Q)
| Subplots (nrows ncols : nat)
| Imshow (axis : nat) (pic : array2 Q) (cmap origin : string)
    (interpolation : option string)
| SetTitle (axis : nat) (title : string)
| AxisOff (axis : nat)
| Savefig (file : string)
| NibSave (vol : array3 Q) (affine : array2 Q) (file : string).

(** ** The monad of the script: a trace of events and a result *)

Definition run (A : Type) : Type := (list event * result A)%type.

Definition ret {A} (a : A) : run A := ([], Ok a).

Definition bind {A B} (m : run A) (k : A -> run B) : run B :=
  match m with
  | (t, Ok a) => let (t', r) := k a in (t ++ t', r)
  | (t, Raise e) => (t, Raise e)
  end.

Definition emit (e : event) : run unit := ([e], Ok tt).
Definition lift {A} (r : result A) : run A := ([], r).
Definition call {A} (e : event) (r : result A) : run A := ([e], r).

Declare Scope run_scope.
Delimit Scope run_scope with run.
Notation "x <- m ;; k" := (bind m (fun x => k))
  (at level 100, m at next level, right associativity) : run_scope.
Notation "m ;; k" := (bind m (fun _ => k))
  (at level 100, right associativity) : run_scope.

Definition trace_of {A} (m : run A) : list event := fst m.
Definition outcome {A} (m : run A) : result A := snd m.

(** [for i in range(n): body(i)] *)
Fixpoint for_range (l : list nat) (body : nat -> run unit) : run unit :=
  match l with
  | [] => ret tt
  | i :: l' => bind (body i) (fun _ => for_range l' body)
  end.

(** [a[k]] on a 1-D array. *)
Definition item {A} (k : nat) (a : list A) : result A :=
  match nth_error a k with
  | Some v => Ok v
  | None => Raise IndexError
  end.

(** The variables of the module once the script has run. *)
Record globals : Type := Globals
  { g_affine : array2 Q;
    g_mask : array3 bool;
    g_data : array3 Q;
    g_sigma : list Q;
    g_den_small : array3 Q;
    g_den_large : array3 Q;
    g_den_final : array3 Q;
    g_axial_middle : nat;
    g_original : array2 Q;
    g_final_output : array2 Q;
    g_difference : array2 Q }.

Local Open Scope string_scope.
Local Open Scope run_scope.

(** Lines 96-108: the figure with the original, the output and the
    residual. *)
Definition residual_figure (original final_output difference : array2 Q)
  : run unit :=
  emit (Subplots 1 3) ;;
  emit (Imshow 0 original "gray" "lower" None) ;;
  emit (SetTitle 0 "Original") ;;
  emit (Imshow 1 final_output "gray" "lower" None) ;;
  emit (SetTitle 1 "ASCM output") ;;
  emit (Imshow 2 difference "gray" "lower" None) ;;
  emit (SetTitle 2 "Residual") ;;
  for_range (seq 0 3) (fun i => emit (AxisOff i)) ;;
  emit (Savefig "denoised_ascm.png") ;;
  emit (Print "The result saved in denoised_ascm.png" NoValue).

(** Lines 130-146: the figure that compares the two denoised volumes with
    the fused one. *)
Definition comparison_figure (axial_middle : nat)
    (original final_output : array2 Q) (den_small den_large : array3 Q)
  : run unit :=
  emit (Subplots 1 4) ;;
  emit (Imshow 0 original "gray" "lower" None) ;;
  emit (SetTitle 0 "Original") ;;
  small <- lift (slice_z axial_middle den_small) ;;
  emit (Imshow 1 (transpose small) "gray" "lower" (Some "none")) ;;
  emit (SetTitle 1 "NLMEANS small") ;;
  large <- lift (slice_z axial_middle den_large) ;;
  emit (Imshow 2 (transpose large) "gray" "lower" (Some "none")) ;;
  emit (SetTitle 2 "NLMEANS large") ;;
  emit (Imshow 3 final_output "gray" "lower" (Some "none")) ;;
  emit (SetTitle 3 "ASCM ") ;;
  for_range (seq 0 4) (fun i => emit (AxisOff i)) ;;
  emit (Savefig "ascm_comparison.png") ;;
  emit (Print "The result saved in ascm_comparison.png" NoValue).

(** Lines 89-94: the middle axial slice of the volume and of the output,
    and their residual.  [data.shape[2] / 2] is the integer quotient, as
    under Python 2, for which the script was written (the file does not
    import true division); the numpy of that time truncated a float index
    to the same value. *)
Definition residual (data den_final : array3 Q) (mask : array3 bool)
  : run (nat * array2 Q * array2 Q * array2 Q) :=
  let axial_middle := len_z data / 2 in
  emit (Local 89 "axial_middle") ;;
  o <- lift (slice_z axial_middle data) ;;
  let original := transpose o in
  emit (Local 91 "original") ;;
  f <- lift (slice_z axial_middle den_final) ;;
  let final_output := transpose f in
  emit (Local 92 "final_output") ;;
  d <- lift (broadcast2 Qminus final_output original) ;;
  let difference := map2d Qabs d in
  emit (Local 93 "difference") ;;
  m <- lift (slice_z axial_middle mask) ;;
  difference <- lift (set_where (map2d negb (transpose m)) 0%Q difference) ;;
  emit (Local 94 "difference") ;;
  ret (axial_middle, original, final_output, difference).

(** Lines 25-46: load the image, derive the mask from channel 0 and the
    working volume from channel 1, estimate the noise. *)
Definition load_and_estimate `{DenoiseLib} (img : image)
  : run (array2 Q * array3 bool * array3 Q * list Q) :=
  emit Fetch ;;
  emit Read ;;
  emit GetData ;;
  let data := img_data img in
  emit GetAffine ;;
  let affine := img_affine img in
  reference <- lift (channel 0 data) ;;
  let mask := map3d gt80 reference in
  emit (Local 31 "mask") ;;
  data <- lift (channel 1 data) ;;
  emit (Local 32 "data") ;;
  emit (Print "vol size" (ShapeOf (shape3 data))) ;;
  emit Clock ;;
  sigma <- call (EstimateSigma data 4) (estimate_sigma data 4) ;;
  ret (affine, mask, data, sigma).

(** Lines 53-59 and 66-72: the two calls of the patch denoiser. *)
Definition denoise_small `{DenoiseLib}
    (data : array3 Q) (sigma : list Q) (mask : array3 bool)
  : run (array3 Q) :=
  call (NonLocalMeans data sigma mask 1 1 true)
       (non_local_means data sigma mask 1 1 true).

Definition denoise_large `{DenoiseLib}
    (data : array3 Q) (sigma : list Q) (mask : array3 bool)
  : run (array3 Q) :=
  call (NonLocalMeans data sigma mask 2 1 true)
       (non_local_means data sigma mask 2 1 true).

(** Lines 81-146: fuse, report, plot and save. *)
Definition fuse_and_report `{DenoiseLib}
    (affine : array2 Q) (mask : array3 bool) (data : array3 Q)
    (sigma : list Q) (den_small den_large : array3 Q) : run globals :=
  h <- lift (item 0 sigma) ;;
  den_final <- call (Ascm data den_small den_large h)
                 (ascm data den_small den_large h) ;;
  emit Clock ;;
  emit (Print "total time" Elapsed) ;;
  r <- residual data den_final mask ;;
  let '(axial_middle, original, final_output, difference) := r in
  residual_figure original final_output difference ;;
  emit (NibSave den_final affine "denoised_ascm.nii.gz") ;;
  emit (Print "Saving the entire denoised output in denoised_ascm.nii.gz"
          NoValue) ;;
  comparison_figure axial_middle original final_output den_small den_large ;;
  ret (Globals affine mask data sigma den_small den_large den_final
         axial_middle original final_output difference).

(** The script, top to bottom. *)
Definition main `{DenoiseLib} (img : image) : run globals :=
  p <- load_and_estimate img ;;
  let '(affine, mask, data, sigma) := p in
  den_small <- denoise_small data sigma mask ;;
  den_large <- denoise_large data sigma mask ;;
  fuse_and_report affine mask data sigma den_small den_large.

(** The script with the two denoiser calls in the other order: the
    schedule that section 4.2 of the specification allows, to be compared
    with [main]. *)
Definition main_large_first `{DenoiseLib} (img : image) : run globals :=
  p <- load_and_estimate img ;;
  let '(affine, mask, data, sigma) := p in
  den_large <- denoise_large data sigma mask ;;
  den_small <- denoise_small data sigma mask ;;
  fuse_and_report affine mask data sigma den_small den_large.

Local Close Scope run_scope.
Local Close Scope string_scope.

(** ** The fusion engine, from its contract *)

Module Fusion.
Section Engine.

(** The rule that gives the weight [w[v]] of a voxel (given by its
    position in the buffer) from the three volumes and [h].  Section 9 of
    the specification leaves its formula open, so the engine takes it as a
    parameter; nothing below depends on its range. *)
Variable weight : array3 Q -> array3 Q -> array3 Q -> Q -> nat -> Q.

Definition same_shape (a b : array3 Q) : bool :=
  (len_x a =? len_x b) && (len_y a =? len_y b) && (len_z a =? len_z b).

Definition negative (h : Q) : bool := negb (Qle_bool 0 h).

(** Modelled from the spec: the blend of section 4.3,
    [F[v] = w[v]*S[v] + (1-w[v])*L[v]]. *)
Definition blend (w s l : Q) : Q := (w * s + (1 - w) * l)%Q.

(** Modelled from the spec: the checks of the fusion call, which is
    [dipy.denoise.ascm.ascm] and is not among the sources.  Section 4.3
    names two failures, a shape of [S] or [L] that is not the shape of
    [O], and a negative [h], and gives no precedence between them: the
    call reports every condition that holds. *)
Definition violations (O S L : array3 Q) (h : Q) : list condition :=
  (if same_shape S O && same_shape L O then [] else [ShapeMismatch])
  ++ (if negative h then [InvalidParameter] else []).

(** Modelled from the spec: the fusion call [ascm(O, S, L, h)] of
    section 4.3, which is not among the sources.  A call that violates
    the contract is rejected with its conditions; otherwise the output has
    the shape of [O] and blends [S] and [L] voxel by voxel. *)
Definition ascm (O S L : array3 Q) (h : Q) : result (array3 Q) :=
  match violations O S L h with
  | [] =>
      Ok (Array3 (len_x O) (len_y O) (len_z O)
            (tabulate (len_x O * len_y O * len_z O) (fun v =>
               blend (weight O S L h v)
                     (nth v (cells3 S) filler) (nth v (cells3 L) filler))))
  | why => Raise (Rejected why)
  end.

End Engine.
End Fusion.

(** ** What a completed run looks like *)

Local Open Scope string_scope.

(** The events of a run that reaches the last line, in order, in terms of
    the final variables, the [h] given to the fusion call and the two
    pictures of lines 133 and 136. *)
Definition script_trace (g : globals) (h : Q) (small large : array2 Q)
  : list event :=
  [ Fetch; Read; GetData; GetAffine;
    Local 31 "mask"; Local 32 "data";
    Print "vol size" (ShapeOf (shape3 (g_data g))); Clock;
    EstimateSigma (g_data g) 4;
    NonLocalMeans (g_data g) (g_sigma g) (g_mask g) 1 1 true;
    NonLocalMeans (g_data g) (g_sigma g) (g_mask g) 2 1 true;
    Ascm (g_data g) (g_den_small g) (g_den_large g) h;
    Clock; Print "total time" Elapsed;
    Local 89 "axial_middle"; Local 91 "original"; Local 92 "final_output";
    Local 93 "difference"; Local 94 "difference";
    Subplots 1 3;
    Imshow 0 (g_original g) "gray" "lower" None; SetTitle 0 "Original";
    Imshow 1 (g_final_output g) "gray" "lower" None;
    SetTitle 1 "ASCM output";
    Imshow 2 (g_difference g) "gray" "lower" None; SetTitle 2 "Residual";
    AxisOff 0; AxisOff 1; AxisOff 2;
    Savefig "denoised_ascm.png";
    Print "The result saved in denoised_ascm.png" NoValue;
    NibSave (g_den_final g) (g_affine g) "denoised_ascm.nii.gz";
    Print "Saving the entire denoised output in denoised_ascm.nii.gz" NoValue;
    Subplots 1 4;
    Imshow 0 (g_original g) "gray" "lower" None; SetTitle 0 "Original";
    Imshow 1 small "gray" "lower" (Some "none"); SetTitle 1 "NLMEANS small";
    Imshow 2 large "gray" "lower" (Some "none"); SetTitle 2 "NLMEANS large";
    Imshow 3 (g_final_output g) "gray" "lower" (Some "none");
    SetTitle 3 "ASCM ";
    AxisOff 0; AxisOff 1; AxisOff 2; AxisOff 3;
    Savefig "ascm_comparison.png";
    Print "The result saved in ascm_comparison.png" NoValue ].

Local Close Scope string_scope.

(** How the final variables of a completed run come from the image and
    the library. *)
Record explains `{DenoiseLib} (img : image) (g : globals) (h : Q)
    (small large : array2 Q) : Prop :=
  { ex_affine : g_affine g = img_affine img;
    ex_mask : exists reference,
        channel 0 (img_data img) = Ok reference /\
        g_mask g = map3d gt80 reference;
    ex_data : channel 1 (img_data img) = Ok (g_data g);
    ex_sigma : estimate_sigma (g_data g) 4 = Ok (g_sigma g);
    ex_small :
      non_local_means (g_data g) (g_sigma g) (g_mask g) 1 1 true
      = Ok (g_den_small g);
    ex_large :
      non_local_means (g_data g) (g_sigma g) (g_mask g) 2 1 true
      = Ok (g_den_large g);
    ex_h : item 0 (g_sigma g) = Ok h;
    ex_final :
      ascm (g_data g) (g_den_small g) (g_den_large g) h
      = Ok (g_den_final g);
    ex_residual :
      outcome (residual (g_data g) (g_den_final g) (g_mask g))
      = Ok (g_axial_middle g, g_original g, g_final_output g,
            g_difference g);
    ex_small_picture : exists s,
        slice_z (g_axial_middle g) (g_den_small g) = Ok s /\
        small = transpose s;
    ex_large_picture : exists s,
        slice_z (g_axial_middle g) (g_den_large g) = Ok s /\
        large = transpose s }.

Definition is_denoiser_call (e : event) : bool :=
  match e with NonLocalMeans _ _ _ _ _ _ => true | _ => false end.

Definition is_fusion_call (e : event) : bool :=
  match e with Ascm _ _ _ _ => true | _ => false end.

Definition is_save (e : event) : bool :=
  match e with NibSave _ _ _ => true | _ => false end.

(** A library that honours the contracts of section 4 of the
    specification: the estimate is a non-empty array of non-negative
    numbers, the denoiser and the fusion return a volume of the shape of
    their input, the fusion at least when the three shapes agree and [h]
    is not negative. *)
Definition dependable (lib : DenoiseLib) : Prop :=
  (forall arr N, exists s rest,
      estimate_sigma arr N = Ok (s :: rest) /\ (0 <= s)%Q) /\
  (forall arr sigma mask pr br ric, exists out,
      non_local_means arr sigma mask pr br ric = Ok out /\
      shape3 out = shape3 arr) /\
  (forall O S L h,
      shape3 S = shape3 O -> shape3 L = shape3 O -> (0 <= h)%Q ->
      exists F, ascm O S L h = Ok F /\ shape3 F = shape3 O).

(** ** Changing one sample of the input *)

(** The array with the sample at [x, y, z, c] replaced by [v]. *)
Definition poke {A} `{Filler A} (a : array4 A) (x y z c : nat) (v : A)
  : array4 A :=
  let at_ := ((x * ext_y a + y) * ext_z a + z) * ext_c a + c in
  Array4 (ext_x a) (ext_y a) (ext_z a) (ext_c a)
    (tabulate (List.length (cells4 a))
       (fun i => if i =? at_ then v else nth i (cells4 a) filler)).

Definition poke_image (img : image) (x y z c : nat) (v : Q) : image :=
  Image (poke (img_data img) x y z c v) (img_affine img).

(** The volume with the sample at [x, y, z] replaced by [v]. *)
Definition poke3 {A} `{Filler A} (a : array3 A) (x y z : nat) (v : A)
  : array3 A :=
  let at_ := (x * len_y a + y) * len_z a + z in
  Array3 (len_x a) (len_y a) (len_z a)
    (tabulate (List.length (cells3 a))
       (fun i => if i =? at_ then v else nth i (cells3 a) filler)).

(** A buffer as long as the shape says. *)
Definition proper3 {A} (a : array3 A) : Prop :=
  List.length (cells3 a) = len_x a * len_y a * len_z a.

(** The image of two channels whose channel 1 is the volume [a] and whose
    reference channel is 0 everywhere: no voxel of it is in the mask. *)
Definition unmasked_image (a : array3 Q) : image :=
  Image
    (Array4 (len_x a) (len_y a) (len_z a) 2
       (tabulate (len_x a * len_y a * len_z a * 2)
          (fun i => if i mod 2 =? 0 then 0%Q
                    else nth (i / 2) (cells3 a) filler)))
    (Array2 0 0 []).

(** "Changing the intensity of the volume at a voxel outside the mask
    leaves the estimated sigma unchanged", for the volume the script
    processes (channel 1). *)
Definition unmasked_voxels_excluded (lib : DenoiseLib) : Prop :=
  forall img x y z v affine mask data sigma,
    outcome (load_and_estimate img) = Ok (affine, mask, data, sigma) ->
    x < len_x data -> y < len_y data -> z < len_z data ->
    get3 mask x y z = false ->
    exists mask' data',
      outcome (load_and_estimate (poke_image img x y z 1 v))
      = Ok (affine, mask', data', sigma).

(** ** The stages of the pipeline *)

Inductive stage : Type :=
| Load
| MaskDerivation
| SigmaEstimation
| Denoising
| FusionCall
| TimingLogging
| Visualization
| Persistence.

(** The place of a stage in the order "fetch/load, mask derivation, sigma
    estimation, denoiser calls, fusion call, timing/logging, visualization,
    persistence". *)
Definition rank (s : stage) : nat :=
  match s with
  | Load => 0
  | MaskDerivation => 1
  | SigmaEstimation => 2
  | Denoising => 3
  | FusionCall => 4
  | TimingLogging => 5
  | Visualization => 6
  | Persistence => 7
  end.

Definition stage_eqb (s t : stage) : bool := rank s =? rank t.

(** The stage an event belongs to.  The local statements of lines 31-32
    split the input into the mask and the working volume; those of lines
    89-94 prepare the pictures. *)
Definition stage_of (e : event) : stage :=
  match e with
  | Fetch | Read | GetData | GetAffine => Load
  | Local line _ => if line <=? 32 then MaskDerivation else Visualization
  | Print _ _ | Clock => TimingLogging
  | EstimateSigma _ _ => SigmaEstimation
  | NonLocalMeans _ _ _ _ _ _ => Denoising
  | Ascm _ _ _ _ => FusionCall
  | Subplots _ _ | Imshow _ _ _ _ _ | SetTitle _ _ | AxisOff _
  | Savefig _ => Visualization
  | NibSave _ _ _ => Persistence
  end.

Definition stages (t : list event) : list stage := map stage_of t.

(** A trace runs its stages in the fixed order when the ranks never go
    down. *)
Fixpoint ascending (l : list nat) : bool :=
  match l with
  | a :: (b :: _) as l' => (a <=? b) && ascending l'
  | _ => true
  end.

Definition in_fixed_order (t : list event) : bool :=
  ascending (map rank (stages t)).

(** The stages in the order they are entered: runs of one stage are
    merged. *)
Fixpoint phases (l : list stage) : list stage :=
  match l with
  | [] => []
  | s :: l' =>
      match phases l' with
      | s' :: p => if stage_eqb s s' then s' :: p else s :: s' :: p
      | [] => [s]
      end
  end.

(** The stages whose results a stage reads, from the data flow of the
    script: the mask and the working volume are cut from the loaded data
    (31-32); the estimator reads the working volume (46); the denoiser
    reads volume, sigma and mask (53-72); fusion reads the volume, sigma
    and both denoised volumes (81); line 34 prints the shape of the working
    volume; the figures read volume, mask, denoised volumes and fused
    output (89-101, 131-139); the saved file holds the fused output and
    the affine of the loaded image (117). *)
Definition consumes (s : stage) : list stage :=
  match s with
  | Load => []
  | MaskDerivation => [Load]
  | SigmaEstimation => [MaskDerivation]
  | Denoising => [MaskDerivation; SigmaEstimation]
  | FusionCall => [MaskDerivation; SigmaEstimation; Denoising]
  | TimingLogging => [MaskDerivation]
  | Visualization => [MaskDerivation; Denoising; FusionCall]
  | Persistence => [Load; FusionCall]
  end.

Definition mem_stage (s : stage) (l : list stage) : bool :=
  existsb (stage_eqb s) l.

(** No event is followed, now or later, by an event of a stage it reads
    from. *)
Fixpoint dependencies_respected (l : list stage) : bool :=
  match l with
  | [] => true
  | s :: l' =>
      forallb (fun t => negb (mem_stage t (s :: l'))) (consumes s)
      && dependencies_respected l'
  end.

(** ** A small instance: an image of 2 x 2 x 2 voxels and 3 channels *)

Module Example.

(** Voxel [v] (in buffer order) holds [30 v], [30 v + 10], [30 v + 20]:
    channel 0 exceeds 80 from voxel 3 on. *)
Definition data : array4 Q :=
  Array4 2 2 2 3 (tabulate 24 (fun i => inject_Z (Z.of_nat (10 * i)))).

Definition affine : array2 Q :=
  Array2 4 4 (tabulate 16 (fun i => if i mod 5 =? 0 then 1%Q else 0%Q)).

Definition img : image := Image data affine.

Definition total (l : list Q) : Q := fold_right Qplus 0%Q l.

(** A stand-in for the estimator: the size of the mean sample over the
    coil count. *)
Definition mean_over (arr : array3 Q) (N : nat) : result (list Q) :=
  Ok [Qred (Qabs (total (cells3 arr))
            / inject_Z (Z.of_nat (N * List.length (cells3 arr))))%Q].

(** A stand-in for the denoiser: each sample is pulled towards the first
    estimate, the more so the larger the patch; outside the mask the
    sample is kept. *)
Definition shrink (arr : array3 Q) (sigma : list Q) (mask : array3 bool)
    (patch_radius block_radius : nat) (rician : bool)
  : result (array3 Q) :=
  let s := nth 0 sigma 0%Q in
  let k := inject_Z (Z.of_nat (patch_radius + block_radius + 1)) in
  Ok (Array3 (len_x arr) (len_y arr) (len_z arr)
        (tabulate (len_x arr * len_y arr * len_z arr) (fun v =>
           let x := nth v (cells3 arr) filler in
           if nth v (cells3 mask) filler
           then Qred (x - (x - s) / k)%Q else x))).

(** A stand-in for the weighting rule: an even blend. *)
Definition even (O S L : array3 Q) (h : Q) (v : nat) : Q := (1 # 2)%Q.

#[export] Instance lib : DenoiseLib :=
  { estimate_sigma := mean_over;
    non_local_means := shrink;
    ascm := Fusion.ascm even }.

Definition blank : globals :=
  Globals (Array2 0 0 []) (Array3 0 0 0 []) (Array3 0 0 0 []) []
    (Array3 0 0 0 []) (Array3 0 0 0 []) (Array3 0 0 0 []) 0
    (Array2 0 0 []) (Array2 0 0 []) (Array2 0 0 []).

Definition final_of (r : run globals) : globals :=
  match outcome r with Ok g => g | Raise _ => blank end.

(** The variables at the end of the run on [img], and the [h] of its
    fusion call. *)
Definition final : globals := Eval vm_compute in final_of (main img).
Definition h : Q := Eval vm_compute in nth 0 (g_sigma final) 0%Q.

(** The same image with the reference channel of voxel 0 raised from 0 to
    500: the voxel enters the mask, channel 1 is untouched. *)
Definition img_remasked : image := poke_image img 0 0 0 0 500%Q.
Definition final_remasked : globals :=
  Eval vm_compute in final_of (main img_remasked).

End Example.


(** ** Further notions about a run *)

Local Open Scope string_scope.

(** The figures that the documentation of the script includes: the
    [.. figure::] directives of lines 111 and 149. *)
Definition documented_figures : list string :=
  [ "denoised_ascm.png"; "ascm_comparision.png" ].

(** The files a run writes, in order: [plt.savefig] and [nib.save]. *)
Definition written_files (t : list event) : list string :=
  flat_map (fun e => match e with
                     | Savefig file => [file]
                     | NibSave _ _ file => [file]
                     | _ => []
                     end) t.

Definition is_library_call (e : event) : bool :=
  match e with
  | EstimateSigma _ _ | NonLocalMeans _ _ _ _ _ _ | Ascm _ _ _ _ => true
  | _ => false
  end.

(** The exception a call of the library raises, if it raises. *)
Definition raised_by `{DenoiseLib} (e : event) : option exn :=
  match e with
  | EstimateSigma arr N =>
      match estimate_sigma arr N with Raise x => Some x | Ok _ => None end
  | NonLocalMeans arr sigma mask pr br ric =>
      match non_local_means arr sigma mask pr br ric with
      | Raise x => Some x
      | Ok _ => None
      end
  | Ascm ima fimau fimao h =>
      match ascm ima fimau fimao h with Raise x => Some x | Ok _ => None end
  | _ => None
  end.

(** The events after the first reading of the clock and before the next
    one: what line 83 reports as "total time". *)
Fixpoint after_clock (t : list event) : list event :=
  match t with
  | [] => []
  | Clock :: t' => t'
  | _ :: t' => after_clock t'
  end.

Fixpoint until_clock (t : list event) : list event :=
  match t with
  | [] => []
  | Clock :: _ => []
  | e :: t' => e :: until_clock t'
  end.

Definition timed (t : list event) : list event :=
  until_clock (after_clock t).

(** An event, and the final variables, with another affine. *)
Definition retarget (affine : array2 Q) (e : event) : event :=
  match e with
  | NibSave vol _ file => NibSave vol affine file
  | _ => e
  end.

Definition with_affine (affine : array2 Q) (g : globals) : globals :=
  Globals affine (g_mask g) (g_data g) (g_sigma g) (g_den_small g)
    (g_den_large g) (g_den_final g) (g_axial_middle g) (g_original g)
    (g_final_output g) (g_difference g).

Definition map_result {A B} (f : A -> B) (r : result A) : result B :=
  match r with Ok a => Ok (f a) | Raise e => Raise e end.

Local Close Scope string_scope.

(** ** Instances on which the script fails *)

Module Faulty.

(** One channel only: line 32 has no channel 1 to take. *)
Definition gray : image :=
  Image (Array4 2 2 2 1 (tabulate 8 (fun i => inject_Z (Z.of_nat (30 * i)))))
        Example.affine.

(** An estimator that returns an empty array. *)
Definition mute : DenoiseLib :=
  {| estimate_sigma := fun _ _ => Ok [];
     non_local_means := Example.shrink;
     ascm := Fusion.ascm Example.even |}.

(** A denoiser that returns one axial slice only, and a fusion that
    returns the volume it was given. *)
Definition thin : DenoiseLib :=
  {| estimate_sigma := Example.mean_over;
     non_local_means := fun arr _ _ _ _ _ =>
       Ok (Array3 (len_x arr) (len_y arr) 1
             (tabulate (len_x arr * len_y arr) (fun _ => 0%Q)));
     ascm := fun O _ _ _ => Ok O |}.

(** A fusion that returns a volume with one more plane along [x]. *)
Definition wide : DenoiseLib :=
  {| estimate_sigma := Example.mean_over;
     non_local_means := Example.shrink;
     ascm := fun O _ _ _ =>
       Ok (Array3 (len_x O + 1) (len_y O) (len_z O)
             (tabulate ((len_x O + 1) * len_y O * len_z O) (fun _ => 0%Q))) |}.

(** A fusion that rejects every call. *)
Definition strict : DenoiseLib :=
  {| estimate_sigma := Example.mean_over;
     non_local_means := Example.shrink;
     ascm := fun _ _ _ _ => Raise (Rejected [DegenerateInput]) |}.

End Faulty.

(** * Properties *)

(** ** Arrays *)

Arguments channel : simpl never.
Arguments slice_z : simpl never.
Arguments transpose : simpl never.
Arguments set_where : simpl never.
Arguments broadcast2 : simpl never.
Arguments item : simpl never.
Arguments map2d : simpl never.
Arguments map3d : simpl never.
Arguments tabulate : simpl never.
Arguments poke : simpl never.
Arguments poke3 : simpl never.
Arguments unmasked_image : simpl never.
#[local] Arguments Nat.div : simpl never.
#[local] Arguments Nat.modulo : simpl never.

Lemma length_tabulate {A} (n : nat) (f : nat -> A) :
  List.length (tabulate n f) = n.
Proof. unfold tabulate. now rewrite length_map, length_seq. Qed.

Lemma nth_tabulate {A} (n i : nat) (f : nat -> A) (d : A) :
  i < n -> nth i (tabulate n f) d = f i.
Proof.
  intros Hi. unfold tabulate.
  rewrite (nth_indep _ d (f 0)) by now rewrite length_map, length_seq.
  rewrite map_nth, seq_nth by assumption. reflexivity.
Qed.

Lemma tabulate_ext {A} (n : nat) (f g : nat -> A) :
  (forall i, i < n -> f i = g i) -> tabulate n f = tabulate n g.
Proof.
  intros Hfg. unfold tabulate. apply map_ext_in.
  intros i Hi. apply in_seq in Hi. apply Hfg. lia.
Qed.

Lemma tabulate_nth {A} (n : nat) (l : list A) (d : A) :
  List.length l = n -> tabulate n (fun i => nth i l d) = l.
Proof.
  intros Hlen. apply nth_ext with (d := d) (d' := d).
  - now rewrite length_tabulate.
  - intros i Hi. rewrite length_tabulate in Hi.
    exact (nth_tabulate n i (fun k => nth k l d) d Hi).
Qed.

Lemma flat2_bound (r c i j : nat) : i < r -> j < c -> i * c + j < r * c.
Proof.
  intros Hi Hj. apply Nat.lt_le_trans with ((i + 1) * c); [lia|].
  apply Nat.mul_le_mono_r. lia.
Qed.

Lemma flat3_bound (nx ny nz x y z : nat) :
  x < nx -> y < ny -> z < nz -> (x * ny + y) * nz + z < nx * ny * nz.
Proof. intros Hx Hy Hz. now apply flat2_bound; [apply flat2_bound|]. Qed.

Lemma flat2_div (c i j : nat) : j < c -> (i * c + j) / c = i.
Proof.
  intros Hj. symmetry. apply Nat.div_unique with (r := j); [assumption | lia].
Qed.

Lemma flat2_mod (c i j : nat) : j < c -> (i * c + j) mod c = j.
Proof.
  intros Hj. symmetry. apply Nat.mod_unique with (q := i); [assumption | lia].
Qed.

Section ArrayFacts.
Context {A : Type} `{Filler A}.

Lemma channel_ok (k : nat) (a : array4 A) (b : array3 A) :
  channel k a = Ok b ->
  k < ext_c a /\
  shape3 b = (ext_x a, ext_y a, ext_z a) /\
  List.length (cells3 b) = ext_x a * ext_y a * ext_z a /\
  forall x y z, x < ext_x a -> y < ext_y a -> z < ext_z a ->
    get3 b x y z = get4 a x y z k.
Proof.
  unfold channel. destruct (k <? ext_c a) eqn:Hk; [|discriminate].
  intros E. injection E as <-. apply Nat.ltb_lt in Hk.
  repeat split; trivial.
  - cbn. apply length_tabulate.
  - intros x y z Hx Hy Hz. unfold get3, get4. cbn.
    rewrite nth_tabulate by now apply flat3_bound. reflexivity.
Qed.

Lemma channel_total (k : nat) (a : array4 A) :
  k < ext_c a -> exists b, channel k a = Ok b.
Proof.
  intros Hk. unfold channel. apply Nat.ltb_lt in Hk. rewrite Hk. eauto.
Qed.

Lemma slice_z_ok (m : nat) (a : array3 A) (s : array2 A) :
  slice_z m a = Ok s ->
  m < len_z a /\
  rows2 s = len_x a /\ cols2 s = len_y a /\
  forall x y, x < len_x a -> y < len_y a -> get2 s x y = get3 a x y m.
Proof.
  unfold slice_z. destruct (m <? len_z a) eqn:Hm; [|discriminate].
  intros E. injection E as <-. apply Nat.ltb_lt in Hm.
  repeat split; trivial.
  intros x y Hx Hy. unfold get2, get3. cbn.
  rewrite nth_tabulate by now apply flat2_bound. reflexivity.
Qed.

Lemma slice_z_total (m : nat) (a : array3 A) :
  m < len_z a -> exists s, slice_z m a = Ok s.
Proof.
  intros Hm. unfold slice_z. apply Nat.ltb_lt in Hm. rewrite Hm. eauto.
Qed.

Lemma transpose_shape (a : array2 A) :
  rows2 (transpose a) = cols2 a /\ cols2 (transpose a) = rows2 a /\
  List.length (cells2 (transpose a)) = cols2 a * rows2 a.
Proof. unfold transpose. cbn. now rewrite length_tabulate. Qed.

Lemma get2_transpose (a : array2 A) (i j : nat) :
  i < cols2 a -> j < rows2 a -> get2 (transpose a) i j = get2 a j i.
Proof.
  intros Hi Hj. unfold transpose, get2 at 1. cbn.
  rewrite nth_tabulate by now apply flat2_bound.
  now rewrite flat2_div, flat2_mod.
Qed.

Lemma set_where_ok (m : array2 bool) (v : A) (a r : array2 A) :
  set_where m v a = Ok r ->
  rows2 m = rows2 a /\ cols2 m = cols2 a /\
  rows2 r = rows2 a /\ cols2 r = cols2 a /\
  forall i j, i < rows2 a -> j < cols2 a ->
    get2 r i j = if get2 m i j then v else get2 a i j.
Proof.
  unfold set_where.
  destruct ((rows2 m =? rows2 a) && (cols2 m =? cols2 a)) eqn:E;
    [|discriminate].
  apply andb_true_iff in E. destruct E as [Er Ec].
  apply Nat.eqb_eq in Er, Ec.
  intros E. injection E as <-. repeat split; trivial.
  intros i j Hi Hj. unfold get2. cbn.
  rewrite nth_tabulate by now apply flat2_bound. now rewrite Ec.
Qed.

Lemma set_where_total (m : array2 bool) (v : A) (a : array2 A) :
  rows2 m = rows2 a -> cols2 m = cols2 a ->
  exists r, set_where m v a = Ok r.
Proof.
  intros Er Ec. unfold set_where. rewrite Er, Ec, !Nat.eqb_refl. cbn. eauto.
Qed.
End ArrayFacts.

Lemma get2_map2d {A B} `{Filler A} `{Filler B} (f : A -> B) (a : array2 A)
    (i j : nat) :
  i * cols2 a + j < List.length (cells2 a) ->
  get2 (map2d f a) i j = f (get2 a i j).
Proof.
  intros Hlen. unfold get2, map2d. cbn.
  rewrite (nth_indep _ filler (f filler)) by now rewrite length_map.
  apply map_nth.
Qed.

Lemma get3_map3d {A B} `{Filler A} `{Filler B} (f : A -> B) (a : array3 A)
    (x y z : nat) :
  (x * len_y a + y) * len_z a + z < List.length (cells3 a) ->
  get3 (map3d f a) x y z = f (get3 a x y z).
Proof.
  intros Hlen. unfold get3, map3d. cbn.
  rewrite (nth_indep _ filler (f filler)) by now rewrite length_map.
  apply map_nth.
Qed.

Lemma bdim_same (d : nat) : bdim d d = Some d.
Proof. unfold bdim. now rewrite Nat.eqb_refl. Qed.

Lemma broadcast2_same_shape {A B C} `{Filler A} `{Filler B} `{Filler C}
    (op : A -> B -> C) (a : array2 A) (b : array2 B) :
  rows2 a = rows2 b -> cols2 a = cols2 b ->
  exists c, broadcast2 op a b = Ok c /\
    rows2 c = rows2 a /\ cols2 c = cols2 a /\
    List.length (cells2 c) = rows2 a * cols2 a /\
    forall i j, i < rows2 a -> j < cols2 a ->
      get2 c i j = op (get2 a i j) (get2 b i j).
Proof.
  intros Er Ec. unfold broadcast2. rewrite <- Er, <- Ec, !bdim_same.
  eexists. split; [reflexivity|]. cbn. rewrite length_tabulate.
  repeat split; trivial.
  intros i j Hi Hj. unfold get2 at 1. cbn.
  rewrite nth_tabulate by now apply flat2_bound.
  rewrite flat2_div, flat2_mod by assumption.
  destruct (rows2 a =? 1) eqn:R1; destruct (cols2 a =? 1) eqn:C1;
    try apply Nat.eqb_eq in R1; try apply Nat.eqb_eq in C1;
    try (replace i with 0 by lia); try (replace j with 0 by lia);
    reflexivity.
Qed.

(** [gt80] is the strict comparison with 80. *)
Lemma gt80_spec (x : Q) : gt80 x = true <-> (80 < x)%Q.
Proof.
  unfold gt80. rewrite negb_true_iff. split.
  - intros E. apply Qnot_le_lt. intros Hle.
    apply Qle_bool_iff in Hle. congruence.
  - intros Hlt. destruct (Qle_bool x 80) eqn:E; [|reflexivity].
    apply Qle_bool_iff in E. exfalso. now apply (Qlt_not_le _ _ Hlt).
Qed.

(** ** Runs of the script *)

Ltac case_result :=
  match goal with
  | |- context [match ?r with Ok _ => _ | Raise _ => _ end] =>
      destruct r eqn:?; cbn
  end.

Ltac unfold_script :=
  unfold main, main_large_first, load_and_estimate, denoise_small,
    denoise_large, fuse_and_report, residual, residual_figure,
    comparison_figure, trace_of, outcome, bind, call, lift, emit, ret.

(** Every branch of a run: one case per statement that can raise. *)
Ltac run_cases := unfold_script; cbn; repeat case_result.

Ltac replay :=
  repeat match goal with
         | E : _ = Ok _ |- _ => rewrite E; cbn
         end.

Lemma residual_inv (data F : array3 Q) (mask : array3 bool)
    (r : nat * array2 Q * array2 Q * array2 Q) :
  outcome (residual data F mask) = Ok r ->
  exists o f d m diff,
    slice_z (len_z data / 2) data = Ok o /\
    slice_z (len_z data / 2) F = Ok f /\
    broadcast2 Qminus (transpose f) (transpose o) = Ok d /\
    slice_z (len_z data / 2) mask = Ok m /\
    set_where (map2d negb (transpose m)) 0%Q (map2d Qabs d) = Ok diff /\
    r = (len_z data / 2, transpose o, transpose f, diff).
Proof.
  run_cases; intros E; try discriminate E.
  injection E as <-. eauto 12.
Qed.

(** The residual picture, sample by sample, when the fused volume has the
    extent of the volume in [x] and [y]. *)
Lemma residual_pointwise (data F : array3 Q) (mask : array3 bool)
    (m : nat) (original final_output difference : array2 Q) :
  outcome (residual data F mask) = Ok (m, original, final_output, difference) ->
  len_x F = len_x data -> len_y F = len_y data ->
  len_x mask = len_x data -> len_y mask = len_y data ->
  m = len_z data / 2 /\
  shape2 difference = (len_y data, len_x data) /\
  forall x y, x < len_x data -> y < len_y data ->
    get2 original y x = get3 data x y m /\
    get2 final_output y x = get3 F x y m /\
    get2 difference y x =
      if get3 mask x y m
      then Qabs (get3 F x y m - get3 data x y m)
      else 0%Q.
Proof.
  intros Hrun HFx HFy Hmx Hmy.
  apply residual_inv in Hrun.
  destruct Hrun as (o & f & d & ms & diff & Ho & Hf & Hd & Hm & Hset & E).
  injection E as -> -> -> ->.
  apply slice_z_ok in Ho. destruct Ho as (_ & Hor & Hoc & Ho).
  apply slice_z_ok in Hf. destruct Hf as (_ & Hfr & Hfc & Hf).
  apply slice_z_ok in Hm. destruct Hm as (_ & Hmr & Hmc & Hm).
  destruct (transpose_shape o) as (Tor & Toc & _).
  destruct (transpose_shape f) as (Tfr & Tfc & _).
  destruct (transpose_shape ms) as (Tmr & Tmc & Tml).
  destruct (broadcast2_same_shape Qminus (transpose f) (transpose o))
    as (d' & Hd' & Hdr & Hdc & Hdl & Hdv); [congruence | congruence |].
  rewrite Hd in Hd'. injection Hd' as <-.
  apply set_where_ok in Hset.
  destruct Hset as (_ & _ & Hsr & Hsc & Hsv).
  change (rows2 (map2d Qabs d)) with (rows2 d) in Hsr, Hsv.
  change (cols2 (map2d Qabs d)) with (cols2 d) in Hsc, Hsv.
  split; [reflexivity|]. split.
  { unfold shape2. f_equal; congruence. }
  intros x y Hx Hy.
  assert (Ho' : get2 (transpose o) y x = get3 data x y (len_z data / 2)).
  { rewrite get2_transpose by congruence. apply Ho; assumption. }
  assert (Hf' : get2 (transpose f) y x = get3 F x y (len_z data / 2)).
  { rewrite get2_transpose by congruence. apply Hf; congruence. }
  repeat split; trivial.
  rewrite Hsv by congruence.
  rewrite get2_map2d.
  2:{ cbn. rewrite Tml, Tmc. apply flat2_bound; congruence. }
  rewrite get2_transpose by congruence.
  rewrite Hm by congruence.
  rewrite get2_map2d.
  2:{ rewrite Hdl, Hdc. apply flat2_bound; congruence. }
  rewrite Hdv by congruence. rewrite Ho', Hf'.
  destruct (get3 mask x y (len_z data / 2)); reflexivity.
Qed.

Section Runs.
Context {lib : DenoiseLib}.

(** A run that reaches the last line is explained step by step, and its
    trace is the trace of the script. *)
Lemma main_ok_inv (img : image) (g : globals) :
  outcome (main img) = Ok g ->
  exists h small large,
    explains img g h small large /\
    trace_of (main img) = script_trace g h small large.
Proof.
  run_cases; intros E; try discriminate E.
  injection E as <-.
  do 3 eexists. split; [|reflexivity].
  constructor; cbn; eauto.
  unfold_script. cbn. replay. reflexivity.
Qed.

Lemma main_ok_intro (img : image) (g : globals) (h : Q)
    (small large : array2 Q) :
  explains img g h small large ->
  main img = (script_trace g h small large, Ok g).
Proof.
  intros [Ha (reference & Hr & Hm) Hd Hs Hsm Hlg Hh Hf Hres
            (cs & Hcs & ->) (cl & Hcl & ->)].
  apply residual_inv in Hres.
  destruct Hres as (o & f & d & ms & diff & Ho & Hf' & Hd' & Hms & Hset & E).
  injection E as Eam Eo Ef Ediff.
  rewrite Eam in Hcs, Hcl.
  destruct g; cbn in *; subst.
  unfold_script. cbn. replay. reflexivity.
Qed.
End Runs.

Lemma shape3_eq {A B} (a : array3 A) (b : array3 B) :
  shape3 a = shape3 b ->
  len_x a = len_x b /\ len_y a = len_y b /\ len_z a = len_z b.
Proof. unfold shape3. intros E. injection E as -> -> ->. auto. Qed.

Lemma residual_total (data F : array3 Q) (mask : array3 bool) :
  1 <= len_z data -> shape3 F = shape3 data -> shape3 mask = shape3 data ->
  exists r, outcome (residual data F mask) = Ok r.
Proof.
  intros Hz HF HM.
  apply shape3_eq in HF. destruct HF as (HFx & HFy & HFz).
  apply shape3_eq in HM. destruct HM as (HMx & HMy & HMz).
  assert (Hm : len_z data / 2 < len_z data) by (apply Nat.div_lt; lia).
  destruct (slice_z_total (len_z data / 2) data Hm) as (o & Ho).
  destruct (slice_z_total (len_z data / 2) F) as (f & Hf); [lia|].
  destruct (slice_z_total (len_z data / 2) mask) as (ms & Hms); [lia|].
  pose proof (slice_z_ok _ _ _ Ho) as (_ & Hor & Hoc & _).
  pose proof (slice_z_ok _ _ _ Hf) as (_ & Hfr & Hfc & _).
  pose proof (slice_z_ok _ _ _ Hms) as (_ & Hmr & Hmc & _).
  destruct (transpose_shape o) as (Tor & Toc & _).
  destruct (transpose_shape f) as (Tfr & Tfc & _).
  destruct (transpose_shape ms) as (Tmr & Tmc & _).
  destruct (broadcast2_same_shape Qminus (transpose f) (transpose o))
    as (d & Hd & Hdr & Hdc & _); [congruence | congruence |].
  destruct (set_where_total (map2d negb (transpose ms)) 0%Q (map2d Qabs d))
    as (diff & Hdiff).
  { unfold map2d; cbn. congruence. }
  { unfold map2d; cbn. congruence. }
  eexists. unfold_script. cbn. replay. reflexivity.
Qed.

(** X1: with a dependable library, the script runs to its last line on
    every image that has at least two channels and one axial slice. *)
Lemma main_completes (lib : DenoiseLib) (img : image) :
  dependable lib ->
  2 <= ext_c (img_data img) -> 1 <= ext_z (img_data img) ->
  exists g, outcome (main img) = Ok g.
Proof.
  intros (Hest & Hnlm & Hascm) Hc Hz.
  destruct (channel_total 0 (img_data img)) as (reference & Hr); [lia|].
  destruct (channel_total 1 (img_data img)) as (data & Hd); [lia|].
  pose proof (channel_ok _ _ _ Hr) as (_ & Sr & _).
  pose proof (channel_ok _ _ _ Hd) as (_ & Sd & _).
  destruct (Hest data 4) as (s & rest & Hs & Hpos).
  set (mask := map3d gt80 reference).
  destruct (Hnlm data (s :: rest) mask 1 1 true) as (S & HS & SS).
  destruct (Hnlm data (s :: rest) mask 2 1 true) as (L & HL & SL).
  destruct (Hascm data S L s SS SL Hpos) as (F & HF & SF).
  assert (Hzd : 1 <= len_z data).
  { unfold shape3 in Sd. injection Sd as _ _ ->. assumption. }
  destruct (residual_total data F mask Hzd SF) as ([[[m o] f] diff] & Hres).
  { unfold mask, shape3, map3d; cbn. unfold shape3 in Sr, Sd. congruence. }
  pose proof (residual_inv _ _ _ _ Hres) as
    (o' & f' & d' & ms' & diff' & _ & _ & _ & _ & _ & E).
  injection E as Em _ _ _.
  apply shape3_eq in SS, SL. destruct SS as (_ & _ & SSz), SL as (_ & _ & SLz).
  assert (Hm : m < len_z data) by (subst m; apply Nat.div_lt; lia).
  destruct (slice_z_total m S) as (cs & Hcs); [lia|].
  destruct (slice_z_total m L) as (cl & Hcl); [lia|].
  exists (Globals (img_affine img) mask data (s :: rest) S L F m o f diff).
  erewrite main_ok_intro with (h := s); [reflexivity|].
  constructor; cbn; eauto.
Qed.

(** ** The fusion engine *)

Lemma same_shape_iff (a b : array3 Q) :
  Fusion.same_shape a b = true <-> shape3 a = shape3 b.
Proof.
  unfold Fusion.same_shape, shape3.
  rewrite !andb_true_iff, !Nat.eqb_eq. split.
  - intros [[-> ->] ->]. reflexivity.
  - intros E. injection E as -> -> ->. auto.
Qed.

Lemma negative_iff (h : Q) : Fusion.negative h = true <-> (h < 0)%Q.
Proof.
  unfold Fusion.negative. rewrite negb_true_iff. split.
  - intros E. apply Qnot_le_lt. intros Hle.
    apply Qle_bool_iff in Hle. congruence.
  - intros Hlt. destruct (Qle_bool 0 h) eqn:E; [|reflexivity].
    apply Qle_bool_iff in E. exfalso. now apply (Qlt_not_le _ _ Hlt).
Qed.

Lemma not_negative (h : Q) : (0 <= h)%Q -> Fusion.negative h = false.
Proof.
  intros Hh. unfold Fusion.negative.
  apply Qle_bool_iff in Hh. now rewrite Hh.
Qed.

Lemma blend_equal (w s l : Q) : (s == l)%Q -> (Fusion.blend w s l == s)%Q.
Proof. intros E. unfold Fusion.blend. rewrite <- E. ring. Qed.

(** A call within the contract is served: the output has the shape of [O]
    and every voxel is the blend of the voxels of [S] and [L]. *)
Lemma fusion_serves weight (O S L : array3 Q) (h : Q) :
  shape3 S = shape3 O -> shape3 L = shape3 O -> (0 <= h)%Q ->
  exists F,
    Fusion.ascm weight O S L h = Ok F /\
    shape3 F = shape3 O /\
    forall x y z, x < len_x O -> y < len_y O -> z < len_z O ->
      get3 F x y z =
      Fusion.blend (weight O S L h ((x * len_y O + y) * len_z O + z))
        (get3 S x y z) (get3 L x y z).
Proof.
  intros HS HL Hh. unfold Fusion.ascm, Fusion.violations.
  rewrite (proj2 (same_shape_iff S O) HS), (proj2 (same_shape_iff L O) HL).
  rewrite (not_negative h Hh). cbn.
  eexists. split; [reflexivity|]. split; [reflexivity|].
  intros x y z Hx Hy Hz.
  apply shape3_eq in HS, HL.
  destruct HS as (_ & HSy & HSz), HL as (_ & HLy & HLz).
  unfold get3. cbn. rewrite nth_tabulate by now apply flat3_bound.
  now rewrite HSy, HSz, HLy, HLz.
Qed.

(** C8: within the contract (both estimates have the shape of [O], [h] is
    not negative) the fusion call returns a volume, and at every voxel
    where [S] and [L] agree the output equals both, whatever [h] and
    whatever the weighting rule. *)
Theorem fusion_keeps_agreeing_voxels
    (weight : array3 Q -> array3 Q -> array3 Q -> Q -> nat -> Q)
    (O S L : array3 Q) (h : Q) (x y z : nat) :
  shape3 S = shape3 O -> shape3 L = shape3 O -> (0 <= h)%Q ->
  x < len_x O -> y < len_y O -> z < len_z O ->
  (get3 S x y z == get3 L x y z)%Q ->
  exists F,
    Fusion.ascm weight O S L h = Ok F /\
    shape3 F = shape3 O /\
    (get3 F x y z == get3 S x y z)%Q /\
    (get3 F x y z == get3 L x y z)%Q.
Proof.
  intros HS HL Hh Hx Hy Hz Heq.
  destruct (fusion_serves weight O S L h HS HL Hh) as (F & HF & Hshape & Hv).
  exists F. split; [assumption|]. split; [assumption|].
  rewrite (Hv x y z Hx Hy Hz).
  pose proof (blend_equal
                (weight O S L h ((x * len_y O + y) * len_z O + z))
                _ _ Heq) as Hb.
  split; [exact Hb|]. now rewrite Hb.
Qed.

Lemma fusion_keeps_agreeing_voxels_witness :
  exists F,
    Fusion.ascm Example.even (g_data Example.final)
      (g_den_small Example.final) (g_den_large Example.final) Example.h
    = Ok F /\
    shape3 F = shape3 (g_data Example.final) /\
    (get3 F 0 0 0 == get3 (g_den_small Example.final) 0 0 0)%Q /\
    (get3 F 0 0 0 == get3 (g_den_large Example.final) 0 0 0)%Q.
Proof.
  apply fusion_keeps_agreeing_voxels.
  - vm_compute. reflexivity.
  - vm_compute. reflexivity.
  - vm_compute. discriminate.
  - cbn. lia.
  - cbn. lia.
  - cbn. lia.
  - vm_compute. reflexivity.
Defined.

(** C9: a fusion call in which [S] or [L] has not the shape of [O], or in
    which [h] is negative, raises; no volume is returned, and the failure
    names ShapeMismatch whenever a shape differs and InvalidParameter
    whenever [h] is negative. *)
Theorem fusion_rejects_invalid_calls
    (weight : array3 Q -> array3 Q -> array3 Q -> Q -> nat -> Q)
    (O S L : array3 Q) (h : Q) :
  shape3 S <> shape3 O \/ shape3 L <> shape3 O \/ (h < 0)%Q ->
  exists why,
    Fusion.ascm weight O S L h = Raise (Rejected why) /\
    (shape3 S <> shape3 O \/ shape3 L <> shape3 O -> In ShapeMismatch why) /\
    ((h < 0)%Q -> In InvalidParameter why).
Proof.
  intros Hbad. unfold Fusion.ascm.
  assert (Hshape : shape3 S <> shape3 O \/ shape3 L <> shape3 O ->
                   In ShapeMismatch (Fusion.violations O S L h)).
  { intros Hs. unfold Fusion.violations. apply in_or_app. left.
    destruct (Fusion.same_shape S O && Fusion.same_shape L O) eqn:E;
      [|now left].
    apply andb_true_iff in E. destruct E as [ES EL].
    apply same_shape_iff in ES, EL. tauto. }
  assert (Hneg : (h < 0)%Q -> In InvalidParameter (Fusion.violations O S L h)).
  { intros Hh. unfold Fusion.violations. apply in_or_app. right.
    apply negative_iff in Hh. rewrite Hh. now left. }
  destruct (Fusion.violations O S L h) as [|c why] eqn:E.
  - exfalso. destruct Hbad as [H1 | [H2 | H3]].
    + now apply Hshape; left.
    + now apply Hshape; right.
    + now apply Hneg.
  - exists (c :: why). auto.
Qed.

Lemma fusion_rejects_invalid_calls_witness :
  exists why,
    Fusion.ascm Example.even (g_data Example.final) (Array3 1 1 1 [0%Q])
      (g_den_large Example.final) (-1)%Q
    = Raise (Rejected why) /\
    In ShapeMismatch why /\ In InvalidParameter why.
Proof.
  destruct (fusion_rejects_invalid_calls Example.even
              (g_data Example.final) (Array3 1 1 1 [0%Q])
              (g_den_large Example.final) (-1)%Q)
    as (why & Hwhy & Hshape & Hneg).
  - left. vm_compute. discriminate.
  - exists why. split; [exact Hwhy|]. split.
    + apply Hshape. left. vm_compute. discriminate.
    + apply Hneg. vm_compute. reflexivity.
Defined.

(** ** The instance *)

Lemma example_dependable : dependable Example.lib.
Proof.
  repeat split.
  - intros arr N. do 2 eexists. split; [reflexivity|].
    rewrite Qred_correct. unfold Qdiv.
    apply Qmult_le_0_compat; [apply Qabs_nonneg|].
    apply Qinv_le_0_compat.
    change 0%Q with (inject_Z 0). rewrite <- Zle_Qle. lia.
  - intros arr sigma mask pr br ric. eexists. split; reflexivity.
  - intros O S L h HS HL Hh.
    destruct (fusion_serves Example.even O S L h HS HL Hh) as (F & HF & HFs & _).
    exists F. split; assumption.
Qed.

Lemma example_completes : exists g, outcome (@main Example.lib Example.img) = Ok g.
Proof.
  apply main_completes; [apply example_dependable | cbn; lia | cbn; lia].
Defined.

(** ** The claims about the script *)

Ltac find_event H :=
  cbn in H;
  repeat (destruct H as [H | H]; [try discriminate H |]);
  try contradiction.

Ltac in_trace := solve [cbn; repeat (first [left; reflexivity | right])].

(** C1: in every run, the fourth argument [h] of the fusion call is the
    noise estimate of the processed volume: the estimator was called on
    that volume (channel 1 of the input) with [N = 4], and [h] is entry 0
    of the array it returned, which is the whole estimate when the array
    has one entry. *)
Theorem fusion_h_is_estimated_sigma (lib : DenoiseLib) (img : image)
    (O S L : array3 Q) (h : Q) :
  In (Ascm O S L h) (trace_of (main img)) ->
  exists sigma,
    channel 1 (img_data img) = Ok O /\
    estimate_sigma O 4 = Ok sigma /\
    In (EstimateSigma O 4) (trace_of (main img)) /\
    item 0 sigma = Ok h /\
    (forall s, sigma = [s] -> h = s).
Proof.
  run_cases; intros HIn; find_event HIn.
  all: injection HIn as <- <- <- <-.
  all: eexists; split; [reflexivity|]; split; [eassumption|].
  all: split; [in_trace|]; split; [assumption|].
  all: intros s ->;
    match goal with
    | E : item 0 [_] = Ok _ |- _ => unfold item in E; cbn in E; congruence
    end.
Qed.

Lemma fusion_h_is_estimated_sigma_witness :
  exists sigma,
    channel 1 (img_data Example.img) = Ok (g_data Example.final) /\
    @estimate_sigma Example.lib (g_data Example.final) 4 = Ok sigma /\
    In (EstimateSigma (g_data Example.final) 4)
       (trace_of (@main Example.lib Example.img)) /\
    item 0 sigma = Ok Example.h /\
    (forall s, sigma = [s] -> Example.h = s).
Proof.
  apply (fusion_h_is_estimated_sigma Example.lib Example.img
           (g_data Example.final) (g_den_small Example.final)
           (g_den_large Example.final) Example.h).
  vm_compute. repeat (first [left; reflexivity | right]).
Defined.

(** The mask of a completed run has the extent of the working volume. *)
Lemma mask_shape (lib : DenoiseLib) (img : image) (g : globals)
    (h : Q) (small large : array2 Q) :
  explains img g h small large ->
  shape3 (g_mask g) = shape3 (g_data g) /\
  shape3 (g_data g)
  = (ext_x (img_data img), ext_y (img_data img), ext_z (img_data img)).
Proof.
  intros E. destruct (ex_mask _ _ _ _ _ E) as (reference & Hr & Hm).
  pose proof (ex_data _ _ _ _ _ E) as Hd.
  apply channel_ok in Hr, Hd.
  destruct Hr as (_ & Sr & _), Hd as (_ & Sd & _).
  rewrite Hm. unfold shape3, map3d in *. cbn. split; congruence.
Qed.

(** C2, as the script has it: the estimator is called on the whole
    processed volume (every voxel of channel 1, inside the mask or not)
    with [N = 4] and without the mask, so the estimate is fixed by channel
    1 alone: two completed runs on images with the same channel 1 have the
    same sigma, whatever their masks. *)
Theorem sigma_is_estimated_from_whole_volume (lib : DenoiseLib)
    (img : image) (g : globals) :
  outcome (main img) = Ok g ->
  (estimate_sigma (g_data g) 4 = Ok (g_sigma g) /\
   In (EstimateSigma (g_data g) 4) (trace_of (main img)) /\
   forall x y z,
     x < ext_x (img_data img) -> y < ext_y (img_data img) ->
     z < ext_z (img_data img) ->
     get3 (g_data g) x y z = get4 (img_data img) x y z 1) /\
  forall img' g',
    outcome (main img') = Ok g' ->
    channel 1 (img_data img') = channel 1 (img_data img) ->
    g_sigma g' = g_sigma g.
Proof.
  intros Hrun.
  destruct (main_ok_inv img g Hrun) as (h & small & large & E & Ht).
  pose proof (ex_data _ _ _ _ _ E) as Hd.
  pose proof (ex_sigma _ _ _ _ _ E) as Hs.
  split.
  - split; [assumption|]. split.
    + rewrite Ht. in_trace.
    + apply channel_ok in Hd. destruct Hd as (_ & _ & _ & Hv). exact Hv.
  - intros img' g' Hrun' Hsame.
    destruct (main_ok_inv img' g' Hrun') as (h' & small' & large' & E' & _).
    pose proof (ex_data _ _ _ _ _ E') as Hd'.
    pose proof (ex_sigma _ _ _ _ _ E') as Hs'.
    assert (Hdata : g_data g' = g_data g) by congruence.
    rewrite Hdata in Hs'. congruence.
Qed.

Lemma sigma_is_estimated_from_whole_volume_witness :
  g_mask Example.final_remasked <> g_mask Example.final /\
  g_sigma Example.final_remasked = g_sigma Example.final.
Proof.
  split.
  - vm_compute. discriminate.
  - refine (proj2 (sigma_is_estimated_from_whole_volume Example.lib
                     Example.img Example.final _)
              Example.img_remasked Example.final_remasked _ _);
      vm_compute; reflexivity.
Defined.

(** C2, as stated, fails: with the mean estimator of the instance, voxel
    (0, 0, 0) is outside the mask, and changing its intensity from 10 to
    70 moves the estimate from 115/4 to 245/8. *)
Lemma sigma_depends_on_unmasked_voxel :
  get3 (g_mask Example.final) 0 0 0 = false /\
  outcome (@load_and_estimate Example.lib Example.img)
  = Ok (g_affine Example.final, g_mask Example.final,
        g_data Example.final, [115 # 4]%Q) /\
  (exists data',
      outcome (@load_and_estimate Example.lib
                 (poke_image Example.img 0 0 0 1 70%Q))
      = Ok (g_affine Example.final, g_mask Example.final, data',
            [245 # 8]%Q)) /\
  ~ unmasked_voxels_excluded Example.lib.
Proof.
  split; [vm_compute; reflexivity|].
  split; [vm_compute; reflexivity|]. split.
  - eexists. vm_compute. reflexivity.
  - intros Hclaim.
    destruct (Hclaim Example.img 0 0 0 70%Q
                (g_affine Example.final) (g_mask Example.final)
                (g_data Example.final) [115 # 4]%Q)
      as (mask' & data' & E);
      [ vm_compute; reflexivity | cbn; lia | cbn; lia | cbn; lia
      | vm_compute; reflexivity |].
    vm_compute in E. discriminate E.
Qed.

(** The claim C2 can only hold for an estimator that does not look at the
    samples: if sigma never changes with a voxel outside the mask, then no
    change of any sample of any volume changes the estimate.  (The volume
    is put in an image whose reference channel is 0, so that the mask is
    empty.) *)
Lemma excluded_only_if_blind (lib : DenoiseLib) :
  unmasked_voxels_excluded lib ->
  forall (a : array3 Q) (x y z : nat) (v : Q) (sigma : list Q),
    proper3 a -> x < len_x a -> y < len_y a -> z < len_z a ->
    estimate_sigma a 4 = Ok sigma ->
    estimate_sigma (poke3 a x y z v) 4 = Ok sigma.
Proof.
  intros Hclaim a x y z v sigma Hproper Hx Hy Hz Hsigma.
  destruct a as [nx ny nz cells]. unfold proper3 in Hproper. cbn in *.
  set (a := Array3 nx ny nz cells) in *.
  assert (H1 : channel 1 (img_data (unmasked_image a)) = Ok a).
  { unfold channel, unmasked_image. cbn. unfold a. do 2 f_equal.
    transitivity (tabulate (nx * ny * nz) (fun i => nth i cells filler));
      [|now apply tabulate_nth].
    apply tabulate_ext. intros i Hi. cbn.
    rewrite nth_tabulate by (apply flat2_bound; lia).
    now rewrite flat2_mod, flat2_div by lia. }
  assert (H0 : exists r, channel 0 (img_data (unmasked_image a)) = Ok r /\
                         get3 (map3d gt80 r) x y z = false).
  { eexists. split; [reflexivity|].
    rewrite get3_map3d by (cbn; rewrite length_tabulate;
                           now apply flat3_bound).
    unfold get3, unmasked_image. cbn.
    rewrite nth_tabulate by now apply flat3_bound.
    rewrite nth_tabulate by (apply flat2_bound; [now apply flat3_bound|lia]).
    now rewrite flat2_mod by lia. }
  destruct H0 as (r & H0 & Hout).
  destruct (Hclaim (unmasked_image a) x y z v (Array2 0 0 [])
              (map3d gt80 r) a sigma) as (mask' & data' & E);
    try assumption.
  { unfold load_and_estimate, outcome, bind, lift, emit, call, ret. cbn.
    rewrite H0. cbn. rewrite H1. cbn. rewrite Hsigma. reflexivity. }
  assert (H1' : channel 1 (poke (img_data (unmasked_image a)) x y z 1 v)
                = Ok (poke3 a x y z v)).
  { unfold channel, poke_image, poke, poke3, unmasked_image. cbn.
    rewrite length_tabulate, Hproper. do 2 f_equal.
    apply tabulate_ext. intros i Hi.
    rewrite nth_tabulate by (apply flat2_bound; lia).
    rewrite nth_tabulate by (apply flat2_bound; lia).
    rewrite flat2_mod, flat2_div by lia. cbn.
    destruct (i =? (x * ny + y) * nz + z) eqn:Ei.
    - apply Nat.eqb_eq in Ei. subst i. now rewrite Nat.eqb_refl.
    - apply Nat.eqb_neq in Ei.
      destruct (i * 2 + 1 =? ((x * ny + y) * nz + z) * 2 + 1) eqn:Ej;
        [apply Nat.eqb_eq in Ej; lia | reflexivity]. }
  revert E.
  unfold load_and_estimate, outcome, bind, lift, emit, call, ret. cbn.
  destruct (channel 0 _); cbn; [|discriminate].
  rewrite H1'. cbn.
  destruct (estimate_sigma (poke3 a x y z v) 4); cbn; [|discriminate].
  intros E. now injection E as _ _ ->.
Qed.

(** C3: a run that reaches the last line calls the patch denoiser exactly
    twice, first with patch radius 1 and then with patch radius 2, both
    times on the same volume, sigma and mask, with block radius 1 and the
    Rician correction on; the two results are the second and third
    argument of the one fusion call. *)
Theorem denoiser_runs_twice (lib : DenoiseLib) (img : image) (g : globals) :
  outcome (main img) = Ok g ->
  filter is_denoiser_call (trace_of (main img))
  = [ NonLocalMeans (g_data g) (g_sigma g) (g_mask g) 1 1 true;
      NonLocalMeans (g_data g) (g_sigma g) (g_mask g) 2 1 true ] /\
  non_local_means (g_data g) (g_sigma g) (g_mask g) 1 1 true
  = Ok (g_den_small g) /\
  non_local_means (g_data g) (g_sigma g) (g_mask g) 2 1 true
  = Ok (g_den_large g) /\
  exists h,
    filter is_fusion_call (trace_of (main img))
    = [ Ascm (g_data g) (g_den_small g) (g_den_large g) h ].
Proof.
  intros Hrun.
  destruct (main_ok_inv img g Hrun) as (h & small & large & E & Ht).
  rewrite Ht. split; [reflexivity|].
  split; [apply (ex_small _ _ _ _ _ E)|].
  split; [apply (ex_large _ _ _ _ _ E)|].
  exists h. reflexivity.
Qed.

Lemma denoiser_runs_twice_witness :
  filter is_denoiser_call (trace_of (@main Example.lib Example.img))
  = [ NonLocalMeans (g_data Example.final) (g_sigma Example.final)
        (g_mask Example.final) 1 1 true;
      NonLocalMeans (g_data Example.final) (g_sigma Example.final)
        (g_mask Example.final) 2 1 true ].
Proof.
  refine (proj1 (denoiser_runs_twice Example.lib Example.img
                   Example.final _)).
  vm_compute. reflexivity.
Defined.

(** C4: the two denoiser calls are independent.  The script with the
    large-patch call first reaches the last line exactly when the script
    does, with the same variables (so the same denoised pair and the same
    fused volume), and makes the same two calls in the other order.  The
    arguments of every denoiser call are the results of lines 25-46, which
    are the same under any library with the same estimator: they depend on
    no result of the denoiser. *)
Theorem denoiser_calls_are_independent (lib : DenoiseLib) (img : image) :
  (forall g, outcome (main_large_first img) = Ok g <->
             outcome (main img) = Ok g) /\
  (forall g, outcome (main img) = Ok g ->
     filter is_denoiser_call (trace_of (main_large_first img))
     = rev (filter is_denoiser_call (trace_of (main img)))) /\
  (forall arr sigma mask pr br ric,
     In (NonLocalMeans arr sigma mask pr br ric) (trace_of (main img)) ->
     outcome (load_and_estimate img) = Ok (img_affine img, mask, arr, sigma)) /\
  (forall lib' : DenoiseLib,
     @estimate_sigma lib' = @estimate_sigma lib ->
     @load_and_estimate lib' img = @load_and_estimate lib img).
Proof.
  repeat split.
  - run_cases; intros E; try discriminate E; exact E.
  - run_cases; intros E; try discriminate E; exact E.
  - intros g Hrun.
    destruct (main_ok_inv img g Hrun) as (h & small & large & E & Ht).
    rewrite Ht. revert Hrun. clear Ht.
    run_cases; intros E'; try discriminate E'.
    injection E' as <-. reflexivity.
  - intros arr sigma mask pr br ric.
    run_cases; intros HIn; find_event HIn.
    all: injection HIn as <- <- <- _ _ _; reflexivity.
  - intros lib' Hest. unfold load_and_estimate. now rewrite Hest.
Qed.

Local Open Scope string_scope.

(** C5: in a run that reaches the last line, with a fused volume of the
    shape of the volume, the residual picture (the third panel of the
    first figure) shows the middle axial slice, transposed: at every voxel
    of the slice inside the mask it is the absolute difference of the
    fused output and the original, and at every voxel outside the mask it
    is zero. *)
Theorem residual_is_masked_absolute_difference (lib : DenoiseLib)
    (img : image) (g : globals) :
  outcome (main img) = Ok g ->
  shape3 (g_den_final g) = shape3 (g_data g) ->
  In (Imshow 2 (g_difference g) "gray" "lower" None) (trace_of (main img)) /\
  g_axial_middle g = len_z (g_data g) / 2 /\
  shape2 (g_difference g) = (len_y (g_data g), len_x (g_data g)) /\
  forall x y, x < len_x (g_data g) -> y < len_y (g_data g) ->
    get2 (g_difference g) y x =
      if get3 (g_mask g) x y (g_axial_middle g)
      then Qabs (get3 (g_den_final g) x y (g_axial_middle g)
                 - get3 (g_data g) x y (g_axial_middle g))
      else 0%Q.
Proof.
  intros Hrun Hshape.
  destruct (main_ok_inv img g Hrun) as (h & small & large & E & Ht).
  destruct (mask_shape lib img g h small large E) as (Hmask & _).
  apply shape3_eq in Hshape, Hmask.
  destruct Hshape as (HFx & HFy & _), Hmask as (HMx & HMy & _).
  destruct (residual_pointwise _ _ _ _ _ _ _ (ex_residual _ _ _ _ _ E)
              HFx HFy HMx HMy) as (Hm & Hs & Hv).
  split; [rewrite Ht; in_trace|]. split; [assumption|].
  split; [assumption|].
  intros x y Hx Hy. apply (Hv x y Hx Hy).
Qed.

Lemma residual_is_masked_absolute_difference_witness :
  get2 (g_difference Example.final) 0 0 = 0%Q /\
  get2 (g_difference Example.final) 1 1 =
    Qabs (get3 (g_den_final Example.final) 1 1 1
          - get3 (g_data Example.final) 1 1 1).
Proof.
  pose proof (residual_is_masked_absolute_difference Example.lib
                Example.img Example.final eq_refl eq_refl)
    as (_ & _ & _ & Hv).
  split.
  - exact (Hv 0 0 (le_S 1 1 (le_n 1)) (le_S 1 1 (le_n 1))).
  - exact (Hv 1 1 (le_n 2) (le_n 2)).
Defined.

(** C6, as the script has it: a run that reaches the last line goes
    through load, mask derivation, a print of the size and the start of
    the clock, sigma estimation, the two denoiser calls, the fusion call,
    the print of the elapsed time, the residual figure and its print, the
    save of the fused volume and its print, and last the comparison figure
    and its print; and in every such run no event comes before an event of
    a stage whose data its stage reads. *)
Theorem script_stage_order (lib : DenoiseLib) (img : image) (g : globals) :
  outcome (main img) = Ok g ->
  phases (stages (trace_of (main img)))
  = [ Load; MaskDerivation; TimingLogging; SigmaEstimation; Denoising;
      FusionCall; TimingLogging; Visualization; TimingLogging; Persistence;
      TimingLogging; Visualization; TimingLogging ] /\
  dependencies_respected (stages (trace_of (main img))) = true.
Proof.
  intros Hrun.
  destruct (main_ok_inv img g Hrun) as (h & small & large & _ & Ht).
  rewrite Ht. split; reflexivity.
Qed.

Lemma script_stage_order_witness :
  phases (stages (trace_of (@main Example.lib Example.img)))
  = [ Load; MaskDerivation; TimingLogging; SigmaEstimation; Denoising;
      FusionCall; TimingLogging; Visualization; TimingLogging; Persistence;
      TimingLogging; Visualization; TimingLogging ] /\
  dependencies_respected (stages (trace_of (@main Example.lib Example.img)))
  = true.
Proof.
  apply (script_stage_order Example.lib Example.img Example.final).
  vm_compute. reflexivity.
Defined.

(** C6, as stated, fails: in the run of the instance the ranks of the
    stages go down.  The clock is started (event 7) before sigma is
    estimated (event 8), and the comparison figure is drawn (event 33 on)
    after the fused volume is saved (event 31). *)
Lemma stages_leave_fixed_order :
  let t := trace_of (@main Example.lib Example.img) in
  in_fixed_order t = false /\
  nth_error (stages t) 7 = Some TimingLogging /\
  nth_error (stages t) 8 = Some SigmaEstimation /\
  nth_error (stages t) 31 = Some Persistence /\
  nth_error (stages t) 33 = Some Visualization.
Proof. vm_compute. repeat split. Qed.

(** C7: in every run, the file written by [nib.save] pairs the volume
    returned by the fusion call with the affine read from the input
    image, unchanged; it is the only volume the script saves. *)
Theorem saved_affine_is_image_affine (lib : DenoiseLib) (img : image)
    (vol : array3 Q) (aff : array2 Q) (file : string) :
  In (NibSave vol aff file) (trace_of (main img)) ->
  aff = img_affine img /\
  file = "denoised_ascm.nii.gz" /\
  (exists O S L h,
      In (Ascm O S L h) (trace_of (main img)) /\ ascm O S L h = Ok vol) /\
  filter is_save (trace_of (main img)) = [NibSave vol aff file].
Proof.
  run_cases; intros HIn; find_event HIn.
  all: injection HIn as <- <- <-.
  all: split; [reflexivity|]; split; [reflexivity|]; split; [|reflexivity].
  all: do 4 eexists; split; [in_trace | eassumption].
Qed.

Lemma saved_affine_is_image_affine_witness :
  Example.affine = img_affine Example.img /\
  "denoised_ascm.nii.gz" = "denoised_ascm.nii.gz" /\
  (exists O S L h,
      In (Ascm O S L h) (trace_of (@main Example.lib Example.img)) /\
      @ascm Example.lib O S L h = Ok (g_den_final Example.final)) /\
  filter is_save (trace_of (@main Example.lib Example.img))
  = [NibSave (g_den_final Example.final) Example.affine
       "denoised_ascm.nii.gz"].
Proof.
  apply (saved_affine_is_image_affine Example.lib Example.img).
  vm_compute. repeat (first [left; reflexivity | right]).
Defined.

(** C10: in a run that reaches the last line, the mask is the strict
    threshold [> 80] of channel 0 of the input and the working volume is
    channel 1; the estimator, both denoiser calls, the fusion call and the
    residual take that volume (and that mask); and the run, trace and
    variables, is the same on every image with the same affine and the
    same channels 0 and 1: the other channels are not used. *)
Theorem mask_from_channel_0_volume_from_channel_1 (lib : DenoiseLib)
    (img : image) (g : globals) :
  outcome (main img) = Ok g ->
  (forall x y z,
      x < ext_x (img_data img) -> y < ext_y (img_data img) ->
      z < ext_z (img_data img) ->
      (get3 (g_mask g) x y z = true <->
       (80 < get4 (img_data img) x y z 0)%Q) /\
      get3 (g_data g) x y z = get4 (img_data img) x y z 1) /\
  shape3 (g_mask g) = shape3 (g_data g) /\
  shape3 (g_data g)
  = (ext_x (img_data img), ext_y (img_data img), ext_z (img_data img)) /\
  (exists h small large,
      trace_of (main img) = script_trace g h small large /\
      outcome (residual (g_data g) (g_den_final g) (g_mask g))
      = Ok (g_axial_middle g, g_original g, g_final_output g,
            g_difference g)) /\
  forall img',
    img_affine img' = img_affine img ->
    channel 0 (img_data img') = channel 0 (img_data img) ->
    channel 1 (img_data img') = channel 1 (img_data img) ->
    main img' = main img.
Proof.
  intros Hrun.
  destruct (main_ok_inv img g Hrun) as (h & small & large & E & Ht).
  destruct (mask_shape lib img g h small large E) as (Hms & Hds).
  destruct (ex_mask _ _ _ _ _ E) as (reference & Hr & Hm).
  pose proof (ex_data _ _ _ _ _ E) as Hd.
  apply channel_ok in Hr, Hd.
  destruct Hr as (_ & Sr & Lr & Vr), Hd as (_ & Sd & _ & Vd).
  split; [|split; [assumption|]; split; [assumption|]; split].
  - intros x y z Hx Hy Hz. split; [|now apply Vd].
    rewrite Hm, get3_map3d.
    + rewrite (Vr x y z Hx Hy Hz). apply gt80_spec.
    + rewrite Lr. unfold shape3 in Sr. injection Sr as _ Ey Ez.
      rewrite Ey, Ez. now apply flat3_bound.
  - exists h, small, large. split; [assumption|].
    apply (ex_residual _ _ _ _ _ E).
  - intros img' Ha H0 H1.
    unfold main, load_and_estimate. now rewrite Ha, H0, H1.
Qed.

Lemma mask_from_channel_0_volume_from_channel_1_witness :
  (get3 (g_mask Example.final) 1 0 0 = true <->
   (80 < get4 Example.data 1 0 0 0)%Q) /\
  get3 (g_data Example.final) 1 0 0 = get4 Example.data 1 0 0 1.
Proof.
  refine (proj1 (mask_from_channel_0_volume_from_channel_1 Example.lib
                   Example.img Example.final _) 1 0 0 _ _ _).
  - vm_compute. reflexivity.
  - cbn. lia.
  - cbn. lia.
  - cbn. lia.
Defined.

Local Close Scope string_scope.

(** ** Further properties of the script *)

Local Open Scope string_scope.
Local Open Scope nat_scope.

Lemma slice_z_raise {A} `{Filler A} (m : nat) (a : array3 A) (e : exn) :
  slice_z m a = Raise e -> e = IndexError /\ len_z a <= m.
Proof.
  unfold slice_z. destruct (m <? len_z a) eqn:Hm; [discriminate|].
  intros E. injection E as <-. apply Nat.ltb_ge in Hm. auto.
Qed.

Lemma item_ok_nonempty {A} (l : list A) (v : A) : item 0 l = Ok v -> l <> [].
Proof. intros E ->. discriminate E. Qed.

(** The picture of an axial slice: row [y], column [x] shows voxel
    [x, y, m]. *)
Lemma picture_of_slice {A} `{Filler A} (m : nat) (a : array3 A)
    (s : array2 A) :
  slice_z m a = Ok s ->
  shape2 (transpose s) = (len_y a, len_x a) /\
  forall x y, x < len_x a -> y < len_y a ->
    get2 (transpose s) y x = get3 a x y m.
Proof.
  intros Hs. apply slice_z_ok in Hs. destruct Hs as (_ & Hr & Hc & Hv).
  destruct (transpose_shape s) as (Tr & Tc & _). split.
  - unfold shape2. congruence.
  - intros x y Hx Hy. rewrite get2_transpose by congruence. now apply Hv.
Qed.

(** X2: a run reaches the last line only on an image with at least two
    channels and one axial slice, with a non-empty estimate, and with a
    fused volume and two denoised volumes that have the middle slice of
    the volume. *)
Theorem completed_run_requirements (lib : DenoiseLib) (img : image)
    (g : globals) :
  outcome (main img) = Ok g ->
  2 <= ext_c (img_data img) /\
  1 <= ext_z (img_data img) /\
  g_sigma g <> [] /\
  g_axial_middle g = ext_z (img_data img) / 2 /\
  g_axial_middle g < len_z (g_den_final g) /\
  g_axial_middle g < len_z (g_den_small g) /\
  g_axial_middle g < len_z (g_den_large g).
Proof.
  intros Hrun.
  destruct (main_ok_inv img g Hrun) as (h & small & large & E & _).
  pose proof (ex_data _ _ _ _ _ E) as Hd.
  apply channel_ok in Hd. destruct Hd as (Hc & Sd & _).
  unfold shape3 in Sd. injection Sd as _ _ Ez.
  pose proof (ex_residual _ _ _ _ _ E) as Hres.
  apply residual_inv in Hres.
  destruct Hres as (o & f & d & ms & diff & Ho & Hf & _ & _ & _ & Eq).
  injection Eq as Em _ _ _.
  apply slice_z_ok in Ho, Hf. destruct Ho as (Ho & _), Hf as (Hf & _).
  destruct (ex_small_picture _ _ _ _ _ E) as (cs & Hcs & _).
  destruct (ex_large_picture _ _ _ _ _ E) as (cl & Hcl & _).
  apply slice_z_ok in Hcs, Hcl. destruct Hcs as (Hcs & _), Hcl as (Hcl & _).
  repeat split; try lia; try congruence.
  apply (item_ok_nonempty _ h), (ex_h _ _ _ _ _ E).
Qed.

Lemma completed_run_requirements_witness :
  2 <= ext_c (img_data Example.img) /\
  1 <= ext_z (img_data Example.img) /\
  g_sigma Example.final <> [] /\
  g_axial_middle Example.final = ext_z (img_data Example.img) / 2 /\
  g_axial_middle Example.final < len_z (g_den_final Example.final) /\
  g_axial_middle Example.final < len_z (g_den_small Example.final) /\
  g_axial_middle Example.final < len_z (g_den_large Example.final).
Proof.
  apply (completed_run_requirements Example.lib Example.img Example.final).
  vm_compute. reflexivity.
Defined.

(** X3: on an image with fewer than two channels the script raises
    IndexError at line 31 (no channel) or line 32 (one channel), before
    any call of the library. *)
Theorem too_few_channels (lib : DenoiseLib) (img : image) :
  ext_c (img_data img) < 2 ->
  outcome (main img) = Raise IndexError /\
  trace_of (main img)
  = ([Fetch; Read; GetData; GetAffine]
     ++ (if ext_c (img_data img) =? 1 then [Local 31 "mask"] else []))%list /\
  filter is_library_call (trace_of (main img)) = [].
Proof.
  intros Hc. unfold_script. unfold channel.
  destruct (ext_c (img_data img)) as [|[|n]]; [| |lia]; cbn; auto.
Qed.

Lemma too_few_channels_witness :
  outcome (@main Example.lib Faulty.gray) = Raise IndexError /\
  trace_of (@main Example.lib Faulty.gray)
  = ([Fetch; Read; GetData; GetAffine]
     ++ (if ext_c (img_data Faulty.gray) =? 1
         then [Local 31 "mask"] else []))%list /\
  filter is_library_call (trace_of (@main Example.lib Faulty.gray)) = [].
Proof.
  apply (too_few_channels Example.lib Faulty.gray). cbn. lia.
Defined.

(** X4: when the estimator returns an empty array, the script still calls
    the denoiser, and then stops: the fusion is never called and no file
    is written.  The run ends with the IndexError of [sigma[0]] at line
    81, unless a denoiser call raised before. *)
Theorem empty_estimate_stops_before_fusion (lib : DenoiseLib) (img : image)
    (data : array3 Q) :
  channel 1 (img_data img) = Ok data ->
  estimate_sigma data 4 = Ok [] ->
  filter is_fusion_call (trace_of (main img)) = [] /\
  written_files (trace_of (main img)) = [] /\
  (exists mask,
      In (NonLocalMeans data [] mask 1 1 true) (trace_of (main img))) /\
  (outcome (main img) = Raise IndexError \/
   exists ev e,
     In ev (trace_of (main img)) /\ is_denoiser_call ev = true /\
     raised_by ev = Some e /\ outcome (main img) = Raise e).
Proof.
  intros Hd Hs.
  pose proof (channel_ok _ _ _ Hd) as (Hc & _).
  destruct (channel_total 0 (img_data img)) as (reference & Hr); [lia|].
  unfold_script. unfold item. cbn.
  rewrite Hr. cbn. rewrite Hd. cbn. rewrite Hs. cbn.
  destruct (non_local_means data [] (map3d gt80 reference) 1 1 true)
    as [S|e1] eqn:E1; cbn.
  - destruct (non_local_means data [] (map3d gt80 reference) 2 1 true)
      as [L|e2] eqn:E2; cbn.
    + repeat split; eauto 12.
    + repeat split; eauto 12. right.
      exists (NonLocalMeans data [] (map3d gt80 reference) 2 1 true), e2.
      cbn. rewrite E2. repeat split; auto 12.
  - repeat split; eauto 12. right.
    exists (NonLocalMeans data [] (map3d gt80 reference) 1 1 true), e1.
    cbn. rewrite E1. repeat split; auto 12.
Qed.

Lemma empty_estimate_stops_before_fusion_witness :
  filter is_fusion_call (trace_of (@main Faulty.mute Example.img)) = [] /\
  written_files (trace_of (@main Faulty.mute Example.img)) = [].
Proof.
  pose proof (empty_estimate_stops_before_fusion Faulty.mute Example.img
                (g_data Example.final)) as H.
  destruct H as (H1 & H2 & _).
  - vm_compute. reflexivity.
  - reflexivity.
  - exact (conj H1 H2).
Defined.

(** X5: a run that fails after the fused volume was saved has failed with
    the IndexError of line 133 or 136: one of the denoised volumes has no
    slice at the middle index of the volume.  The residual figure and the
    volume are on disk, the comparison figure is not. *)
Theorem failure_after_save (lib : DenoiseLib) (img : image) (e : exn)
    (vol : array3 Q) (aff : array2 Q) (file : string) :
  outcome (main img) = Raise e ->
  In (NibSave vol aff file) (trace_of (main img)) ->
  e = IndexError /\
  written_files (trace_of (main img))
  = ["denoised_ascm.png"; "denoised_ascm.nii.gz"] /\
  exists arr sigma mask pr out,
    In (NonLocalMeans arr sigma mask pr 1 true) (trace_of (main img)) /\
    non_local_means arr sigma mask pr 1 true = Ok out /\
    len_z out <= len_z arr / 2.
Proof.
  run_cases; intros Hout HIn; try discriminate Hout; find_event HIn.
  all: injection Hout as <-.
  all: match goal with
       | E : slice_z _ _ = Raise _ |- _ =>
           apply slice_z_raise in E; destruct E as (-> & Hle)
       end.
  all: split; [reflexivity|]; split; [reflexivity|].
  all: do 5 eexists; refine (conj _ (conj _ Hle)); [|eassumption]; in_trace.
Qed.

Lemma failure_after_save_witness :
  IndexError = IndexError /\
  written_files (trace_of (@main Faulty.thin Example.img))
  = ["denoised_ascm.png"; "denoised_ascm.nii.gz"] /\
  exists arr sigma mask pr out,
    In (NonLocalMeans arr sigma mask pr 1 true)
       (trace_of (@main Faulty.thin Example.img)) /\
    @non_local_means Faulty.thin arr sigma mask pr 1 true = Ok out /\
    len_z out <= len_z arr / 2.
Proof.
  apply (failure_after_save Faulty.thin Example.img IndexError
           (g_data Example.final) Example.affine "denoised_ascm.nii.gz").
  - vm_compute. reflexivity.
  - vm_compute. repeat (first [left; reflexivity | right]).
Defined.

Lemma bdim_none (d1 d2 : nat) :
  d1 <> d2 -> d1 <> 1 -> d2 <> 1 -> bdim d1 d2 = None.
Proof.
  intros H12 H1 H2. unfold bdim.
  apply Nat.eqb_neq in H12, H1, H2. now rewrite H12, H1, H2.
Qed.

Lemma broadcast2_raise {A B C} `{Filler A} `{Filler B}
    (op : A -> B -> C) (a : array2 A) (b : array2 B) :
  bdim (rows2 a) (rows2 b) = None \/ bdim (cols2 a) (cols2 b) = None ->
  broadcast2 op a b = Raise ValueError.
Proof.
  unfold broadcast2. intros [E | E]; rewrite E.
  - reflexivity.
  - now destruct (bdim (rows2 a) (rows2 b)).
Qed.

(** X6: the script does not check the shape of the fused volume.  When
    the fusion returns a volume whose extent along [x] or [y] differs from
    that of the volume (neither being 1, which numpy would broadcast), the
    subtraction of line 93 raises ValueError, and the run ends there with
    no file written: the fused volume is lost. *)
Theorem misshaped_fusion_output (lib : DenoiseLib) (img : image)
    (O S L F : array3 Q) (h : Q) :
  In (Ascm O S L h) (trace_of (main img)) ->
  ascm O S L h = Ok F ->
  len_z O / 2 < len_z O -> len_z O / 2 < len_z F ->
  (len_x F <> len_x O /\ len_x F <> 1 /\ len_x O <> 1) \/
  (len_y F <> len_y O /\ len_y F <> 1 /\ len_y O <> 1) ->
  outcome (main img) = Raise ValueError /\
  written_files (trace_of (main img)) = [].
Proof.
  run_cases; intros HIn HF Hz HzF Hbad; find_event HIn.
  all: injection HIn as <- <- <- <-.
  all: match goal with
       | E : ascm _ _ _ _ = _ |- _ => rewrite E in HF; try discriminate HF;
                                        injection HF as <-
       end.
  all: try match goal with
       | E : slice_z _ _ = Raise _ |- _ =>
           apply slice_z_raise in E; destruct E as (_ & Hle); lia
       end.
  all: match goal with
       | Eo : slice_z _ ?O = Ok ?o, Ef : slice_z _ ?F = Ok ?f,
         Eb : broadcast2 _ (transpose ?f) (transpose ?o) = _ |- _ =>
           apply slice_z_ok in Eo, Ef;
           destruct Eo as (_ & Eor & Eoc & _), Ef as (_ & Efr & Efc & _);
           destruct (transpose_shape o) as (Tor & Toc & _);
           destruct (transpose_shape f) as (Tfr & Tfc & _);
           rewrite (broadcast2_raise Qminus (transpose f) (transpose o)) in Eb
       end.
  all: try discriminate.
  all: try match goal with
       | Eb : Raise _ = Raise _ |- _ => injection Eb as <-; split; reflexivity
       end.
  all: rewrite Tor, Toc, Tfr, Tfc, Eor, Eoc, Efr, Efc;
    destruct Hbad as [(H1 & H2 & H3) | (H1 & H2 & H3)];
    [right | left]; now apply bdim_none.
Qed.

Lemma misshaped_fusion_output_witness :
  outcome (@main Faulty.wide Example.img) = Raise ValueError /\
  written_files (trace_of (@main Faulty.wide Example.img)) = [].
Proof.
  apply (misshaped_fusion_output Faulty.wide Example.img
           (g_data Example.final) (g_den_small Example.final)
           (g_den_large Example.final)
           (Array3 3 2 2 (tabulate 12 (fun _ => 0%Q))) Example.h).
  - vm_compute. repeat (first [left; reflexivity | right]).
  - reflexivity.
  - vm_compute. lia.
  - vm_compute. lia.
  - left. cbn. lia.
Defined.

Lemma Qabs_zero_iff (q : Q) : (Qabs q == 0)%Q <-> (q == 0)%Q.
Proof.
  split.
  - intros E. apply Qle_antisym.
    + rewrite <- E. apply Qle_Qabs.
    + pose proof (Qle_Qabs (- q)) as Hn. rewrite Qabs_opp, E in Hn.
      rewrite <- (Qopp_involutive q). change 0%Q with (- 0)%Q.
      now apply Qopp_le_compat.
  - intros E. now rewrite E.
Qed.

Lemma Qminus_zero_iff (a b : Q) : (a - b == 0)%Q <-> (a == b)%Q.
Proof.
  split; intros E.
  - rewrite <- (Qplus_0_l b), <- E. ring.
  - rewrite E. ring.
Qed.

(** X7: in a run that reaches the last line, no sample of the residual
    picture is negative, whatever the shapes the library returned. *)
Theorem residual_is_never_negative (lib : DenoiseLib) (img : image)
    (g : globals) :
  outcome (main img) = Ok g ->
  Forall (fun q => (0 <= q)%Q) (cells2 (g_difference g)).
Proof.
  intros Hrun.
  destruct (main_ok_inv img g Hrun) as (h & small & large & E & _).
  pose proof (ex_residual _ _ _ _ _ E) as Hres.
  apply residual_inv in Hres.
  destruct Hres as (o & f & d & ms & diff & _ & _ & _ & _ & Hset & Eq).
  injection Eq as _ _ _ ->.
  unfold set_where in Hset.
  destruct (_ && _) in Hset; [|discriminate Hset].
  injection Hset as <-. cbn.
  apply Forall_forall. intros q Hq. unfold tabulate in Hq.
  apply in_map_iff in Hq. destruct Hq as (j & <- & _).
  destruct (nth j _ _); [apply Qle_refl|].
  unfold map2d. cbn.
  change (@filler Q filler_Q) with (Qabs 0). rewrite map_nth.
  apply Qabs_nonneg.
Qed.

Lemma residual_is_never_negative_witness :
  Forall (fun q => (0 <= q)%Q) (cells2 (g_difference Example.final)).
Proof.
  apply (residual_is_never_negative Example.lib Example.img Example.final).
  vm_compute. reflexivity.
Defined.

(** X8: in a run that reaches the last line with a fused volume of the
    shape of the volume, the residual picture is zero at a voxel of the
    middle slice exactly when the voxel is outside the mask or the fusion
    left its intensity unchanged. *)
Theorem residual_zero_iff (lib : DenoiseLib) (img : image) (g : globals)
    (x y : nat) :
  outcome (main img) = Ok g ->
  shape3 (g_den_final g) = shape3 (g_data g) ->
  x < len_x (g_data g) -> y < len_y (g_data g) ->
  (get2 (g_difference g) y x == 0)%Q <->
  get3 (g_mask g) x y (g_axial_middle g) = false \/
  (get3 (g_den_final g) x y (g_axial_middle g)
   == get3 (g_data g) x y (g_axial_middle g))%Q.
Proof.
  intros Hrun Hshape Hx Hy.
  destruct (main_ok_inv img g Hrun) as (h & small & large & E & _).
  destruct (mask_shape lib img g h small large E) as (Hmask & _).
  apply shape3_eq in Hshape, Hmask.
  destruct Hshape as (HFx & HFy & _), Hmask as (HMx & HMy & _).
  destruct (residual_pointwise _ _ _ _ _ _ _ (ex_residual _ _ _ _ _ E)
              HFx HFy HMx HMy) as (_ & _ & Hv).
  destruct (Hv x y Hx Hy) as (_ & _ & ->).
  destruct (get3 (g_mask g) x y (g_axial_middle g)).
  - rewrite Qabs_zero_iff, Qminus_zero_iff. split; [auto|].
    intros [Hf|Heq]; [discriminate Hf|exact Heq].
  - split; [auto|reflexivity].
Qed.

Lemma residual_zero_iff_witness :
  (get2 (g_difference Example.final) 0 0 == 0)%Q <->
  get3 (g_mask Example.final) 0 0 (g_axial_middle Example.final) = false \/
  (get3 (g_den_final Example.final) 0 0 (g_axial_middle Example.final)
   == get3 (g_data Example.final) 0 0 (g_axial_middle Example.final))%Q.
Proof.
  apply (residual_zero_iff Example.lib Example.img Example.final 0 0).
  - vm_compute. reflexivity.
  - reflexivity.
  - cbn. lia.
  - cbn. lia.
Defined.

(** X9: the time that line 83 prints is taken between line 36 and line
    83: in a run that reaches the last line the clock brackets exactly the
    estimation, the two denoiser calls and the fusion call, and neither
    the loading of the image nor any drawing or saving. *)
Theorem total_time_covers_the_library_calls (lib : DenoiseLib)
    (img : image) (g : globals) :
  outcome (main img) = Ok g ->
  exists h,
    timed (trace_of (main img))
    = [ EstimateSigma (g_data g) 4;
        NonLocalMeans (g_data g) (g_sigma g) (g_mask g) 1 1 true;
        NonLocalMeans (g_data g) (g_sigma g) (g_mask g) 2 1 true;
        Ascm (g_data g) (g_den_small g) (g_den_large g) h ] /\
    filter is_library_call (trace_of (main img)) = timed (trace_of (main img)).
Proof.
  intros Hrun.
  destruct (main_ok_inv img g Hrun) as (h & small & large & _ & Ht).
  exists h. rewrite Ht. split; reflexivity.
Qed.

Lemma total_time_covers_the_library_calls_witness :
  exists h,
    timed (trace_of (@main Example.lib Example.img))
    = [ EstimateSigma (g_data Example.final) 4;
        NonLocalMeans (g_data Example.final) (g_sigma Example.final)
          (g_mask Example.final) 1 1 true;
        NonLocalMeans (g_data Example.final) (g_sigma Example.final)
          (g_mask Example.final) 2 1 true;
        Ascm (g_data Example.final) (g_den_small Example.final)
          (g_den_large Example.final) h ] /\
    filter is_library_call (trace_of (@main Example.lib Example.img))
    = timed (trace_of (@main Example.lib Example.img)).
Proof.
  apply (total_time_covers_the_library_calls Example.lib Example.img
           Example.final).
  vm_compute. reflexivity.
Defined.

(** X10: the files of a run.  No run writes a figure under another name
    than [denoised_ascm.png] and [ascm_comparison.png]; so the second
    figure that the documentation includes (line 149,
    [ascm_comparision.png]) is never written, while the first is written
    by every run that reaches the last line, which writes the residual
    figure, the volume and the comparison figure, in this order. *)
Theorem documented_comparison_figure_is_never_written (lib : DenoiseLib)
    (img : image) :
  (forall file, In (Savefig file) (trace_of (main img)) ->
     file = "denoised_ascm.png" \/ file = "ascm_comparison.png") /\
  (In "ascm_comparision.png" documented_figures /\
   ~ In "ascm_comparision.png" (written_files (trace_of (main img)))) /\
  (forall g, outcome (main img) = Ok g ->
     written_files (trace_of (main img))
     = ["denoised_ascm.png"; "denoised_ascm.nii.gz"; "ascm_comparison.png"]).
Proof.
  split; [|split; [split; [cbn; auto|]|]].
  - intros file. run_cases; intros HIn; find_event HIn.
    all: injection HIn as <-; auto.
  - run_cases; intros HIn; find_event HIn.
  - intros g. run_cases; intros Hg; try discriminate Hg. reflexivity.
Qed.

(** X11: the affine is only carried along.  On the same data with another
    affine, the script makes the same calls with the same arguments and
    ends with the same variables, except that the volume is saved with,
    and [affine] holds, the other affine. *)
Theorem affine_is_only_carried (lib : DenoiseLib) (data : array4 Q)
    (affine affine' : array2 Q) :
  main (Image data affine')
  = (map (retarget affine') (trace_of (main (Image data affine))),
     map_result (with_affine affine') (outcome (main (Image data affine)))).
Proof.
  run_cases; reflexivity.
Qed.

(** X12: what the pictures show.  In a run that reaches the last line, the
    pictures of the original, of the output and of the two denoised
    volumes are the axial slice at index [shape[2] / 2] of the volume,
    transposed: row [y], column [x] of a picture is voxel [x, y, middle]
    of its volume. *)
Theorem pictures_show_the_middle_slice (lib : DenoiseLib) (img : image)
    (g : globals) :
  outcome (main img) = Ok g ->
  let m := len_z (g_data g) / 2 in
  (shape2 (g_original g) = (len_y (g_data g), len_x (g_data g)) /\
   forall x y, x < len_x (g_data g) -> y < len_y (g_data g) ->
     get2 (g_original g) y x = get3 (g_data g) x y m) /\
  (shape2 (g_final_output g)
   = (len_y (g_den_final g), len_x (g_den_final g)) /\
   forall x y, x < len_x (g_den_final g) -> y < len_y (g_den_final g) ->
     get2 (g_final_output g) y x = get3 (g_den_final g) x y m) /\
  exists small large,
    In (Imshow 1 small "gray" "lower" (Some "none")) (trace_of (main img)) /\
    In (Imshow 2 large "gray" "lower" (Some "none")) (trace_of (main img)) /\
    (forall x y, x < len_x (g_den_small g) -> y < len_y (g_den_small g) ->
       get2 small y x = get3 (g_den_small g) x y m) /\
    (forall x y, x < len_x (g_den_large g) -> y < len_y (g_den_large g) ->
       get2 large y x = get3 (g_den_large g) x y m).
Proof.
  intros Hrun m.
  destruct (main_ok_inv img g Hrun) as (h & small & large & E & Ht).
  pose proof (ex_residual _ _ _ _ _ E) as Hres.
  apply residual_inv in Hres.
  destruct Hres as (o & f & d & ms & diff & Ho & Hf & _ & _ & _ & Eq).
  injection Eq as Em -> -> _.
  destruct (ex_small_picture _ _ _ _ _ E) as (cs & Hcs & ->).
  destruct (ex_large_picture _ _ _ _ _ E) as (cl & Hcl & ->).
  rewrite Em in Hcs, Hcl.
  split; [exact (picture_of_slice _ _ _ Ho)|].
  split; [exact (picture_of_slice _ _ _ Hf)|].
  exists (transpose cs), (transpose cl). rewrite Ht.
  split; [in_trace|]. split; [in_trace|].
  split; [exact (proj2 (picture_of_slice _ _ _ Hcs))
         |exact (proj2 (picture_of_slice _ _ _ Hcl))].
Qed.

Lemma pictures_show_the_middle_slice_witness :
  get2 (g_original Example.final) 1 0 = get3 (g_data Example.final) 0 1 1.
Proof.
  pose proof (pictures_show_the_middle_slice Example.lib Example.img
                Example.final eq_refl) as ((_ & Hv) & _).
  exact (Hv 0 1 (le_S 1 1 (le_n 1)) (le_n 2)).
Defined.

(** X13: the script handles no exception.  When a call of the library
    raises, the run ends with that exception, the call is the last event
    of the run, and no file has been written. *)
Theorem library_exception_ends_the_run (lib : DenoiseLib) (img : image)
    (ev : event) (e : exn) :
  In ev (trace_of (main img)) ->
  raised_by ev = Some e ->
  outcome (main img) = Raise e /\
  last (trace_of (main img)) Fetch = ev /\
  written_files (trace_of (main img)) = [].
Proof.
  run_cases; intros HIn Hr; cbn in HIn.
  all: repeat (destruct HIn as [HIn | HIn];
               [ subst ev; cbn in Hr; try discriminate Hr;
                 repeat match goal with
                        | E : _ = Ok _ |- _ => rewrite E in Hr
                        | E : _ = Raise _ |- _ => rewrite E in Hr
                        end;
                 try discriminate Hr
               | ]);
    try contradiction.
  all: injection Hr as <-; repeat split; reflexivity.
Qed.

Lemma library_exception_ends_the_run_witness :
  outcome (@main Faulty.strict Example.img)
  = Raise (Rejected [DegenerateInput]) /\
  last (trace_of (@main Faulty.strict Example.img)) Fetch
  = Ascm (g_data Example.final) (g_den_small Example.final)
      (g_den_large Example.final) Example.h /\
  written_files (trace_of (@main Faulty.strict Example.img)) = [].
Proof.
  apply (library_exception_ends_the_run Faulty.strict Example.img).
  - vm_compute. repeat (first [left; reflexivity | right]).
  - reflexivity.
Defined.

(** X14: line 34 prints the shape of the working volume, that is the
    three spatial extents of the input; the number of channels is not
    shown. *)
Theorem printed_size_is_spatial (lib : DenoiseLib) (img : image)
    (s : nat * nat * nat) :
  In (Print "vol size" (ShapeOf s)) (trace_of (main img)) ->
  s = (ext_x (img_data img), ext_y (img_data img), ext_z (img_data img)).
Proof.
  run_cases; intros HIn; find_event HIn.
  all: injection HIn as <-.
  all: match goal with
       | E : channel 1 _ = Ok _ |- _ =>
           apply channel_ok in E; destruct E as (_ & Es & _); exact Es
       end.
Qed.

Lemma printed_size_is_spatial_witness : (2, 2, 2) = (2, 2, 2).
Proof.
  apply (printed_size_is_spatial Example.lib Example.img (2, 2, 2)).
  vm_compute. repeat (first [left; reflexivity | right]).
Defined.

Local Close Scope string_scope.
